(** * Hytale-F2P launcher: the version manager

    A shallow embedding of [backend/services/versionManager.js] and the
    properties of its patch-chain resolver.

    Conventions of the embedding.

    - A JavaScript number is a [number]: [NaN] or an integer [Int z].
      Addition, subtraction, [parseInt] and the printing of a number are
      those of the integers.  They are the code's own as long as every
      number met is a safe integer, of magnitude at most
      [MAX_SAFE_INTEGER] = 2^53 - 1; beyond, the code's doubles round
      (2^53 + 1 is 2^53), print in other ways (["1e+21"]) and can make a
      loop run for ever, none of which is represented.  Every statement
      below whose truth depends on the value of a number therefore carries
      the bound as a hypothesis, [safe].  Fractions, infinities and the sign
      of zero are not represented ([-0] behaves as [0] in every operation
      the module applies to it).
    - A JavaScript string is a [string] whose characters are code units
      below 256.
    - A value that came out of a JSON document is a [json]; [undefined] is
      the [None] of [option json].  JSON numbers are integers.  Property
      keys, those looked up and those of the documents, are assumed not to
      name members of the built-in prototypes.
    - A version argument is [option string]: [None] stands for
      [null]/[undefined].
    - Asynchronous functions run to completion one after the other; they
      are functions from a [World] (module state, clock, network and file
      system with the trace of what was asked of them) to an [outcome] and
      the next [World].  Console output is not represented. *)

From Stdlib Require Import ZArith NArith List String Ascii Bool Lia Sorted.
From Stdlib Require Import DecimalString DecimalN.
From Equations Require Import Equations.
Import ListNotations.

Local Open Scope string_scope.
Local Open Scope Z_scope.

(* ===================================================================== *)
(** * Part I: definitions                                                 *)
(* ===================================================================== *)

(** ** JavaScript numbers

    The integers among the doubles, with the arithmetic of [Z]: exact on
    the safe integers ([safe], below), where no operation of the module
    rounds. *)

Inductive number : Type :=
| NaN
| Int (z : Z).

Definition num_add (a b : number) : number :=
  match a, b with
  | Int x, Int y => Int (x + y)
  | _, _ => NaN
  end.

Definition num_sub (a b : number) : number :=
  match a, b with
  | Int x, Int y => Int (x - y)
  | _, _ => NaN
  end.

(** [a <= b], [a >= b], [a > b] and [a === b]: false as soon as one side
    is [NaN]. *)
Definition num_leb (a b : number) : bool :=
  match a, b with
  | Int x, Int y => x <=? y
  | _, _ => false
  end.

Definition num_geb (a b : number) : bool := num_leb b a.

Definition num_gtb (a b : number) : bool :=
  match a, b with
  | Int x, Int y => y <? x
  | _, _ => false
  end.

Definition num_eqb (a b : number) : bool :=
  match a, b with
  | Int x, Int y => x =? y
  | _, _ => false
  end.

(** [Math.max(a, b)]. *)
Definition num_max (a b : number) : number :=
  match a, b with
  | Int x, Int y => Int (Z.max x y)
  | _, _ => NaN
  end.

(** [isNaN(a)]. *)
Definition isNaN (a : number) : bool :=
  match a with
  | NaN => true
  | Int _ => false
  end.

(** ** Number to string

    Every digit of the integer, as the code prints a safe integer. *)

Definition N_to_string (n : N) : string :=
  NilZero.string_of_uint (N.to_uint n).

Definition Z_to_string (z : Z) : string :=
  match z with
  | Z0 => "0"
  | Zpos p => N_to_string (Npos p)
  | Zneg p => "-" ++ N_to_string (Npos p)
  end.

(** [String(a)], also what a template literal does with [${a}]. *)
Definition num_to_string (a : number) : string :=
  match a with
  | NaN => "NaN"
  | Int z => Z_to_string z
  end.

(** ** Characters and digit runs *)

Definition code (c : ascii) : N := N_of_ascii c.

(** The class [\d] of a regular expression, and a decimal digit of
    [parseInt]. *)
Definition is_digit (c : ascii) : bool :=
  ((48 <=? code c) && (code c <=? 57))%N.

Definition digit_value (c : ascii) : N := (code c - 48)%N.

Definition is_hex_digit (c : ascii) : bool :=
  (is_digit c
   || ((97 <=? code c) && (code c <=? 102))
   || ((65 <=? code c) && (code c <=? 70)))%N.

Definition hex_digit_value (c : ascii) : N :=
  (if is_digit c then code c - 48
   else if 97 <=? code c then code c - 87
   else code c - 55)%N.

(** White space and line terminators among the code units below 256: TAB,
    LF, VT, FF, CR, SP and NBSP. *)
Definition is_white_space (c : ascii) : bool :=
  (((9 <=? code c) && (code c <=? 13)) || (code c =? 32) || (code c =? 160))%N.

Fixpoint take_while (f : ascii -> bool) (s : string) : string :=
  match s with
  | EmptyString => EmptyString
  | String c rest => if f c then String c (take_while f rest) else EmptyString
  end.

Fixpoint drop_while (f : ascii -> bool) (s : string) : string :=
  match s with
  | EmptyString => EmptyString
  | String c rest => if f c then drop_while f rest else s
  end.

Definition is_empty (s : string) : bool :=
  match s with
  | EmptyString => true
  | String _ _ => false
  end.

(** The mathematical value of a run of digits in radix [radix], most
    significant digit first, on top of the value [acc] read so far. *)
Fixpoint radix_value (radix : N) (value : ascii -> N) (s : string) (acc : N) : N :=
  match s with
  | EmptyString => acc
  | String c rest => radix_value radix value rest (acc * radix + value c)%N
  end.

Definition decimal_value (s : string) : N := radix_value 10 digit_value s 0.
Definition hex_value (s : string) : N := radix_value 16 hex_digit_value s 0.

(** ** [parseInt(string)], called without a radix

    The result is the integer the digits denote: the code's result when
    that integer is safe. *)

Definition parse_digits (sign : Z) (is_d : ascii -> bool) (value : string -> N)
    (s : string) : number :=
  let z := take_while is_d s in
  if is_empty z then NaN else Int (sign * Z.of_N (value z)).

Definition parse_unsigned (sign : Z) (s : string) : number :=
  match s with
  | String c1 (String c2 rest) =>
      if Ascii.eqb c1 "0" && (Ascii.eqb c2 "x" || Ascii.eqb c2 "X")
      then parse_digits sign is_hex_digit hex_value rest
      else parse_digits sign is_digit decimal_value s
  | _ => parse_digits sign is_digit decimal_value s
  end.

Definition parseInt (input : string) : number :=
  match drop_while is_white_space input with
  | String c rest =>
      if Ascii.eqb c "-" then parse_unsigned (-1) rest
      else if Ascii.eqb c "+" then parse_unsigned 1 rest
      else parse_unsigned 1 (String c rest)
  | EmptyString => parse_unsigned 1 EmptyString
  end.

(** ** The two regular expressions of the module

    [String.prototype.match] with a non-global expression returns the
    leftmost match; both functions below return its capture group 1, and
    [None] where [match] returns [null]. *)

Definition starts_with_digit (s : string) : bool :=
  match s with
  | EmptyString => false
  | String c _ => is_digit c
  end.

(** [s.match(/v(\d+)/)]: the leftmost ["v"] that a digit follows, and the
    longest run of digits after it. *)
Fixpoint match_v_digits (s : string) : option string :=
  match s with
  | EmptyString => None
  | String c rest =>
      if Ascii.eqb c "v" && starts_with_digit rest
      then Some (take_while is_digit rest)
      else match_v_digits rest
  end.

(** [s.match(/(\d+)\.pwr/)]: the leftmost position where a run of digits
    starts that [".pwr"] follows.  The run is taken greedily; giving digits
    back cannot help, since a digit, not the dot, would come next. *)
Fixpoint match_digits_pwr (s : string) : option string :=
  match s with
  | EmptyString => None
  | String c rest =>
      if is_digit c && prefix ".pwr" (drop_while is_digit s)
      then Some (take_while is_digit s)
      else match_digits_pwr rest
  end.

(** [s.endsWith(suffix)]. *)
Definition endsWith (s suffix : string) : bool :=
  let n := String.length s in
  let m := String.length suffix in
  (m <=? n)%nat && String.eqb (substring (n - m) m s) suffix.

(** ** Version codec *)

(** [!version] for a version argument: [null], [undefined] and the empty
    string are falsy. *)
Definition absent (version : option string) : bool :=
  match version with
  | None => true
  | Some s => is_empty s
  end.

Definition extractVersionNumber (version : option string) : number :=
  match version with
  | None => Int 0
  | Some s =>
      if is_empty s then Int 0
      else
        match match_v_digits s with
        | Some digits => parseInt digits
        | None =>
            match match_digits_pwr s with
            | Some digits => parseInt digits
            | None =>
                let num := parseInt s in
                if isNaN num then Int 0 else num
            end
        end
  end.

(** ** Values of JSON documents *)

#[warnings="-register-all"] Inductive json : Type :=
| JNull
| JBool (b : bool)
| JNum (z : Z)
| JStr (s : string)
| JArr (items : list json)
| JObj (fields : list (string * json)).

(** [ToBoolean]. *)
Definition truthy (v : json) : bool :=
  match v with
  | JNull => false
  | JBool b => b
  | JNum z => negb (z =? 0)
  | JStr s => negb (is_empty s)
  | JArr _ => true
  | JObj _ => true
  end.

Definition truthy_opt (v : option json) : bool :=
  match v with
  | None => false
  | Some x => truthy x
  end.

(** [a || b], with the left operand possibly [undefined]. *)
Definition js_or (a : option json) (b : json) : json :=
  match a with
  | Some x => if truthy x then x else b
  | None => b
  end.

(** [String(v)], as a template literal applies it. *)
Fixpoint js_to_string (v : json) : string :=
  match v with
  | JNull => "null"
  | JBool true => "true"
  | JBool false => "false"
  | JNum z => Z_to_string z
  | JStr s => s
  | JArr items =>
      (fix join (l : list json) : string :=
         match l with
         | [] => ""
         | x :: rest =>
             let sx := match x with JNull => "" | _ => js_to_string x end in
             match rest with
             | [] => sx
             | _ :: _ => sx ++ "," ++ join rest
             end
         end) items
  | JObj _ => "[object Object]"
  end.

Fixpoint assoc (key : string) (fields : list (string * json)) : option json :=
  match fields with
  | [] => None
  | (k, v) :: rest => if String.eqb k key then Some v else assoc key rest
  end.

(** A key that is a canonical array index: it prints back to itself. *)
Definition array_index (key : string) : option nat :=
  if negb (is_empty key)
     && is_empty (drop_while is_digit key)
     && String.eqb (N_to_string (decimal_value key)) key
  then Some (N.to_nat (decimal_value key))
  else None.

(** [v[key]] for a [v] that is neither [null] nor [undefined]. *)
Definition js_get (v : json) (key : string) : option json :=
  match v with
  | JObj fields => assoc key fields
  | JArr items =>
      if String.eqb key "length" then Some (JNum (Z.of_nat (List.length items)))
      else match array_index key with
           | Some n => nth_error items n
           | None => None
           end
  | JStr s =>
      if String.eqb key "length" then Some (JNum (Z.of_nat (String.length s)))
      else match array_index key with
           | Some n => option_map (fun c => JStr (String c EmptyString)) (String.get n s)
           | None => None
           end
  | JNull | JBool _ | JNum _ => None
  end.

(** [v?.key]: [undefined] when [v] is [null] or [undefined]. *)
Definition js_get_opt (v : option json) (key : string) : option json :=
  match v with
  | None | Some JNull => None
  | Some x => js_get x key
  end.

Definition indices (n : nat) : list string :=
  map (fun i => N_to_string (N.of_nat i)) (seq 0 n).

(** [Object.keys(v)] for a [v] that is neither [null] nor [undefined].
    The fields of an object are listed as they are stored; the module only
    takes a maximum over the keys, so their order does not matter. *)
Definition js_keys (v : json) : list string :=
  match v with
  | JObj fields => map fst fields
  | JArr items => indices (List.length items)
  | JStr s => indices (String.length s)
  | JNull | JBool _ | JNum _ => []
  end.

(** [a === b] for a string [a]. *)
Definition str_strict_eq (a : string) (b : json) : bool :=
  match b with
  | JStr s => String.eqb a s
  | _ => false
  end.

(** ** The world around the module *)

Inductive method : Type := GET | HEAD.

Record request : Type := mkRequest {
  req_method : method;
  req_url : string
}.

Inductive http_reply : Type :=
| HttpError (message : string)
| HttpResponse (status : Z) (data : json).

(** [apiCache] and [apiCacheTime] are the two module-level variables.
    [clock] is what [Date.now()] reads.  [network] answers a request given
    the requests made before it, [requests] is that history, oldest first.
    [files] is the content of the file at a path, when it can be read, and
    [opened] the paths of the files read so far. *)
Record World : Type := mkWorld {
  apiCache : json;
  apiCacheTime : Z;
  clock : Z;
  network : list request -> request -> http_reply;
  requests : list request;
  files : string -> option string;
  opened : list string
}.

Definition set_cache (data : json) (time : Z) (w : World) : World :=
  mkWorld data time (clock w) (network w) (requests w) (files w) (opened w).

Definition log_request (r : request) (w : World) : World :=
  mkWorld (apiCache w) (apiCacheTime w) (clock w) (network w)
          (requests w ++ [r]) (files w) (opened w).

Definition log_open (path : string) (w : World) : World :=
  mkWorld (apiCache w) (apiCacheTime w) (clock w) (network w)
          (requests w) (files w) (opened w ++ [path]).

(** The module as loaded: [let apiCache = null; let apiCacheTime = 0]. *)
Definition initial_world (now : Z) (net : list request -> request -> http_reply)
    (fs : string -> option string) : World :=
  mkWorld JNull 0 now net [] fs [].

(** ** Asynchronous computations that may throw *)

Inductive outcome (A : Type) : Type :=
| Returned (a : A)
| Thrown (message : string).
Arguments Returned {A} a.
Arguments Thrown {A} message.

Definition Async (A : Type) : Type := World -> outcome A * World.

Definition ret {A} (a : A) : Async A := fun w => (Returned a, w).

Definition throw {A} (message : string) : Async A := fun w => (Thrown message, w).

Definition bind {A B} (m : Async A) (k : A -> Async B) : Async B :=
  fun w =>
    match m w with
    | (Returned a, w') => k a w'
    | (Thrown e, w') => (Thrown e, w')
    end.

(** [try { m } catch (error) { handler(error) }]. *)
Definition try_catch {A} (m : Async A) (handler : string -> Async A) : Async A :=
  fun w =>
    match m w with
    | (Returned a, w') => (Returned a, w')
    | (Thrown e, w') => handler e w'
    end.

Declare Scope async_scope.
Delimit Scope async_scope with async.
Notation "x <- m ;; k" := (bind m (fun x => k))
  (at level 61, m at next level, right associativity) : async_scope.
Local Open Scope async_scope.

Definition date_now : Async Z := fun w => (Returned (clock w), w).
Definition read_apiCache : Async json := fun w => (Returned (apiCache w), w).
Definition read_apiCacheTime : Async Z := fun w => (Returned (apiCacheTime w), w).
Definition write_cache (data : json) (time : Z) : Async unit :=
  fun w => (Returned tt, set_cache data time w).

Record response : Type := mkResponse {
  status : Z;
  data : json
}.

(** An axios call: the request goes on the trace; a network error and a
    status outside 2xx reject. *)
Definition axios (m : method) (url : string) : Async response :=
  fun w =>
    let r := mkRequest m url in
    match network w (requests w) r with
    | HttpError message => (Thrown message, log_request r w)
    | HttpResponse st d =>
        if (200 <=? st) && (st <? 300)
        then (Returned (mkResponse st d), log_request r w)
        else (Thrown ("Request failed with status code " ++ Z_to_string st),
              log_request r w)
    end.

(** [v.key]: a [TypeError] when [v] is [null] or [undefined]. *)
Definition member (v : option json) (key : string) : Async (option json) :=
  match v with
  | None | Some JNull =>
      throw ("Cannot read properties of undefined (reading '" ++ key ++ "')")
  | Some x => ret (js_get x key)
  end.

(** What the module imports from elsewhere in the launcher and from the
    runtime: the platform inspector ([getOS], [getArch] of
    utils/platformUtils), the proxy-aware HTTP client ([smartRequest] of
    utils/proxyClient) and the SHA-256 digest of [crypto], as lowercase
    hexadecimal. *)
Record Platform : Type := mkPlatform {
  getOS : string;
  getArch : string;
  smartRequest : string -> Async response;
  sha256_hex : string -> string
}.

(** ** versionManager.js: constants *)

Definition BASE_PATCH_URL : string := "https://game-patches.hytale.com/patches".
Definition MANIFEST_API : string := "https://files.hytalef2p.com/api/patch_manifest".
Definition NEW_API_URL : string := "https://thecute.cloud/ShipOfYarn/api.php".
Definition API_CACHE_DURATION : Z := 60000.

(** ** Manifest client *)

Definition fetchNewAPI : Async json :=
  now <- date_now ;;
  apiCache <- read_apiCache ;;
  apiCacheTime <- read_apiCacheTime ;;
  if truthy apiCache && (now - apiCacheTime <? API_CACHE_DURATION)
  then ret apiCache
  else
    try_catch
      (response <- axios GET NEW_API_URL ;;
       if truthy (data response) && truthy_opt (js_get (data response) "hytale")
       then
         _ <- write_cache (data response) now ;;
         ret (data response)
       else throw "Invalid API response structure")
      (fun error =>
         apiCache <- read_apiCache ;;
         if truthy apiCache then ret apiCache else throw error).

(** [Math.max(...numbers)] for a list with a first element. *)
Definition max_of (first : number) (others : list number) : number :=
  fold_left num_max others first.

Definition getLatestVersionFromNewAPI (p : Platform) (branch : string) : Async string :=
  try_catch
    (apiData <- fetchNewAPI ;;
     let osName := getOS p in
     let osKey := if String.eqb osName "darwin" then "mac" else osName in
     branchData <- member (js_get apiData "hytale") branch ;;
     if negb (truthy_opt branchData) || negb (truthy_opt (js_get_opt branchData osKey))
     then throw ("No data found for branch: " ++ branch ++ ", OS: " ++ osKey)
     else
       let osData := js_get_opt branchData osKey in
       let versions :=
         filter (fun key => endsWith key ".pwr")
                (match osData with Some o => js_keys o | None => [] end) in
       let versionNumbers :=
         map (fun v => match match_v_digits v with
                       | Some digits => parseInt digits
                       | None => Int 0
                       end) versions in
       match versionNumbers with
       | [] => throw ("No .pwr files found for " ++ osKey)
       | first :: others =>
           let latestVersionNumber := max_of first others in
           ret ("v" ++ num_to_string latestVersionNumber)
       end)
    (fun error => throw error).

(** [String(x)] and the property key of an [x] that is a string or
    [undefined]. *)
Definition string_or_undefined (x : option string) : string :=
  match x with
  | Some s => s
  | None => "undefined"
  end.

Definition getPWRUrlFromNewAPI (p : Platform) (branch version : string) : Async json :=
  try_catch
    (apiData <- fetchNewAPI ;;
     let osName := getOS p in
     let osKey := if String.eqb osName "darwin" then "mac" else osName in
     let fileName :=
       if String.eqb osName "windows" then Some (version ++ "-windows-amd64.pwr")
       else if String.eqb osName "linux" then Some (version ++ "-linux-amd64.pwr")
       else if String.eqb osName "darwin" then Some (version ++ "-darwin-arm64.pwr")
       else None in
     branchData <- member (js_get apiData "hytale") branch ;;
     if negb (truthy_opt branchData) || negb (truthy_opt (js_get_opt branchData osKey))
     then throw ("No data found for branch: " ++ branch ++ ", OS: " ++ osKey)
     else
       let osData := js_get_opt branchData osKey in
       let url := js_get_opt osData (string_or_undefined fileName) in
       match url with
       | Some u =>
           if negb (truthy u)
           then throw ("No URL found for " ++ string_or_undefined fileName)
           else ret u
       | None => throw ("No URL found for " ++ string_or_undefined fileName)
       end)
    (fun error => throw error).

Definition getLatestClientVersion (p : Platform) (branch : string) : Async json :=
  try_catch
    (latestVersion <- getLatestVersionFromNewAPI p branch ;;
     ret (JStr latestVersion))
    (fun error =>
       try_catch
         (response <- smartRequest p
            ("https://files.hytalef2p.com/api/version_client?branch=" ++ branch) ;;
          if truthy (data response)
             && truthy_opt (js_get (data response) "client_version")
          then
            match js_get (data response) "client_version" with
            | Some version => ret version
            | None => ret (JStr "v8")
            end
          else ret (JStr "v8"))
         (fun fallbackError => ret (JStr "v8"))).

Definition fetchPatchManifest (p : Platform) (branch : string) : Async json :=
  try_catch
    (let os := getOS p in
     let arch := getArch p in
     response <- smartRequest p
       (MANIFEST_API ++ "?branch=" ++ branch ++ "&os=" ++ os ++ "&arch=" ++ arch) ;;
     patches <- member (Some (data response)) "patches" ;;
     ret (js_or patches (JObj [])))
    (fun error => ret (JObj [])).

(** ** Archive locator *)

Definition buildArchiveUrl (p : Platform) (buildNumber : number) (branch : string)
    : string :=
  let os := getOS p in
  let arch := getArch p in
  BASE_PATCH_URL ++ "/" ++ os ++ "/" ++ arch ++ "/" ++ branch ++ "/0/"
    ++ num_to_string buildNumber ++ ".pwr".

(** ** Patch planner *)

Definition checkArchiveExists (p : Platform) (buildNumber : number) (branch : string)
    : Async bool :=
  let url := buildArchiveUrl p buildNumber branch in
  try_catch
    (response <- axios HEAD url ;;
     ret (status response =? 200))
    (fun error => ret false).

Definition inspect {A : Type} (a : A) : {b : A | a = b} := exist _ a eq_refl.

(** The number of iterations a descending loop from [i] to [bound] has
    left, and those of an ascending loop from [i] to [target]. *)
Definition steps_down (i bound : number) : nat :=
  match i, bound with
  | Int a, Int b => Z.to_nat (a + 1 - b)
  | _, _ => O
  end.

Definition steps_up (i target : number) : nat :=
  match i, target with
  | Int a, Int b => Z.to_nat (b + 1 - a)
  | _, _ => O
  end.

(** The [for] loop of [discoverAvailableVersions], entered with the loop
    variable [i] and the array [available].  It counts down on the integers,
    as the code does from a safe latest build with a safe [maxProbe]. *)
Equations? discover_loop (p : Platform) (branch : string) (latest : number)
    (maxProbe : Z) (i : number) (available : list string) (w : World)
    : outcome (list string) * World
    by wf (steps_down i (num_max (Int 1) (num_sub latest (Int maxProbe)))) lt :=
  discover_loop p branch latest maxProbe i available w
    with inspect (num_geb i (num_max (Int 1) (num_sub latest (Int maxProbe)))) := {
    | exist _ true _ =>
        bind (checkArchiveExists p i branch)
             (fun exists_ w' =>
                discover_loop p branch latest maxProbe (num_sub i (Int 1))
                  (if exists_ : bool
                   then available ++ [num_to_string i ++ ".pwr"]
                   else available) w') w
    | exist _ false _ => (Returned available, w) }.
Proof.
  destruct latest as [|l], i as [|a]; cbn in *; try discriminate.
  apply Z.leb_le in e. lia.
Qed.

Definition discoverAvailableVersions (p : Platform) (latestKnown : option string)
    (branch : string) (maxProbe : Z) : Async (list string) :=
  fun w =>
    let available := [] in
    let latest := extractVersionNumber latestKnown in
    discover_loop p branch latest maxProbe latest available w.

Record VersionDetails : Type := mkVersionDetails {
  version : option string;
  buildNumber : number;
  buildName : string;
  fullUrl : json;
  differentialUrl : json;
  checksum : json;
  sourceVersion : option string;
  isDifferential : bool;
  releaseNotes : json
}.

(** The object [extractVersionDetails] returns, given the manifest it
    fetched. *)
Definition version_details (p : Platform) (targetVersion : option string)
    (branch : string) (manifest : json) : VersionDetails :=
  let buildNumber := extractVersionNumber targetVersion in
  let previousBuild := num_sub buildNumber (Int 1) in
  let patchInfo := js_get manifest (num_to_string buildNumber) in
  {|
    version := targetVersion;
    buildNumber := buildNumber;
    buildName := "HYTALE-Build-" ++ num_to_string buildNumber;
    fullUrl := js_or (js_get_opt patchInfo "original_url")
                     (JStr (buildArchiveUrl p buildNumber branch));
    differentialUrl := js_or (js_get_opt patchInfo "patch_url") JNull;
    checksum := js_or (js_get_opt patchInfo "patch_hash") JNull;
    sourceVersion :=
      if truthy_opt (js_get_opt patchInfo "from")
      then
        match js_get_opt patchInfo "from" with
        | Some from => Some (js_to_string from ++ ".pwr")
        | None => None
        end
      else if num_gtb previousBuild (Int 0)
           then Some (num_to_string previousBuild ++ ".pwr")
           else None;
    isDifferential := truthy_opt (js_get_opt patchInfo "proper_patch");
    releaseNotes := js_or (js_get_opt patchInfo "patch_note") JNull
  |}.

Definition extractVersionDetails (p : Platform) (targetVersion : option string)
    (branch : string) : Async VersionDetails :=
  manifest <- fetchPatchManifest p branch ;;
  ret (version_details p targetVersion branch manifest).

Definition canUseDifferentialUpdate (currentVersion : option string)
    (targetDetails : option VersionDetails) : bool :=
  match targetDetails with
  | None => false
  | Some details =>
      if negb (truthy (differentialUrl details)) then false
      else if negb (isDifferential details) then false
      else if absent currentVersion then false
      else
        let currentBuild := extractVersionNumber currentVersion in
        let expectedSource := extractVersionNumber (sourceVersion details) in
        num_eqb currentBuild expectedSource
  end.

(** The [for] loop of [needsIntermediatePatches], entered with the loop
    variable [i] and the array [intermediates].  It counts up on the
    integers, as the code does between safe builds. *)
Equations? intermediates_loop (target : number) (i : number)
    (intermediates : list string) : list string
    by wf (steps_up i target) lt :=
  intermediates_loop target i intermediates with inspect (num_leb i target) := {
    | exist _ true _ =>
        intermediates_loop target (num_add i (Int 1))
          (intermediates ++ [num_to_string i ++ ".pwr"])
    | exist _ false _ => intermediates }.
Proof.
  destruct i as [|a]; [discriminate|].
  destruct target as [|b]; [discriminate|].
  cbn in *. apply Z.leb_le in e. lia.
Qed.

Definition needsIntermediatePatches (currentVersion targetVersion : option string)
    : list string :=
  if absent currentVersion then []
  else
    let current := extractVersionNumber currentVersion in
    let target := extractVersionNumber targetVersion in
    intermediates_loop target (num_add current (Int 1)) [].

(** ** Integrity verifier *)

(** The stream over the file feeds every chunk to the hash; ['end']
    resolves with the digest of the whole content, ['error'] rejects. *)
Definition computeFileChecksum (p : Platform) (filePath : string) : Async string :=
  fun w =>
    match files w filePath with
    | Some content => (Returned (sha256_hex p content), log_open filePath w)
    | None => (Thrown ("ENOENT: no such file or directory, open '" ++ filePath ++ "'"),
               log_open filePath w)
    end.

Definition validateChecksum (p : Platform) (filePath : string)
    (expectedChecksum : json) : Async bool :=
  if negb (truthy expectedChecksum) then ret true
  else
    actualChecksum <- computeFileChecksum p filePath ;;
    ret (str_strict_eq actualChecksum expectedChecksum).

(** ** Vocabulary of the specification *)

(** [Number.MAX_SAFE_INTEGER], and the integers a double holds exactly
    together with their neighbours. *)
Definition MAX_SAFE_INTEGER : Z := 9007199254740991.

Definition safe (z : Z) : Prop :=
  - MAX_SAFE_INTEGER <= z <= MAX_SAFE_INTEGER.

(** A JSON value that [String(v)] prints as [js_to_string] does, digit for
    digit: a scalar, its numbers being safe integers, or an array of such
    values at any depth.  Objects are left out. *)
Fixpoint safe_json (v : json) : bool :=
  match v with
  | JNum z => (- MAX_SAFE_INTEGER <=? z) && (z <=? MAX_SAFE_INTEGER)
  | JArr items => forallb safe_json items
  | JNull | JBool _ | JStr _ => true
  | JObj _ => false
  end.

Fixpoint string_forall (f : ascii -> bool) (s : string) : bool :=
  match s with
  | EmptyString => true
  | String c rest => f c && string_forall f rest
  end.

(** A non-empty run of decimal digits: what [\d+] captures. *)
Definition digit_run (s : string) : bool :=
  negb (is_empty s) && string_forall is_digit s.

(** The build number a version argument stands for. *)
Definition build (version : option string) : Z :=
  match extractVersionNumber version with
  | Int z => z
  | NaN => 0
  end.

(** The entry of a manifest for the build of a target version:
    [manifest[buildNumber]]. *)
Definition manifest_entry (manifest : json) (targetVersion : option string)
    : option json :=
  js_get manifest (num_to_string (extractVersionNumber targetVersion)).

(** The full-patch file name of a build. *)
Definition pwr_name (i : Z) : string := Z_to_string i ++ ".pwr".

(** [n] consecutive builds, upwards from [lo] and downwards from [hi]. *)
Fixpoint Zup (lo : Z) (n : nat) : list Z :=
  match n with
  | O => []
  | S k => lo :: Zup (lo + 1) k
  end.

Fixpoint Zdown (hi : Z) (n : nat) : list Z :=
  match n with
  | O => []
  | S k => hi :: Zdown (hi - 1) k
  end.

(** The builds after [current] up to [target], ascending. *)
Definition builds_between (current target : Z) : list Z :=
  Zup (current + 1) (Z.to_nat (target - current)).

(** The builds from [latest] down to [max(1, latest - maxProbe)],
    descending. *)
Definition probe_range (latest maxProbe : Z) : list Z :=
  Zdown latest (Z.to_nat (latest + 1 - Z.max 1 (latest - maxProbe))).

(** The existence probe of a build, and what the network answers to it
    after the requests [history]. *)
Definition probe (p : Platform) (branch : string) (i : Z) : request :=
  mkRequest HEAD (buildArchiveUrl p (Int i) branch).

Definition reports_present (net : list request -> request -> http_reply)
    (history : list request) (r : request) : bool :=
  match net history r with
  | HttpResponse st _ => st =? 200
  | HttpError _ => false
  end.

(** The builds of [builds] whose probe reports present, when the probes
    are issued one after the other in the order of the list. *)
Fixpoint present_builds (p : Platform) (branch : string)
    (net : list request -> request -> http_reply)
    (history : list request) (builds : list Z) : list Z :=
  match builds with
  | [] => []
  | i :: rest =>
      let r := probe p branch i in
      (if reports_present net history r then [i] else [])
        ++ present_builds p branch net (history ++ [r]) rest
  end.

Definition log_requests (rs : list request) (w : World) : World :=
  mkWorld (apiCache w) (apiCacheTime w) (clock w) (network w)
          (requests w ++ rs) (files w) (opened w).

(** The cache cell of [fetchNewAPI] holds a snapshot younger than the
    freshness window. *)
Definition cache_fresh (w : World) : bool :=
  truthy (apiCache w) && (clock w - apiCacheTime w <? API_CACHE_DURATION).

(** The reply to the catalog request carries a usable catalog. *)
Definition catalog_of (reply : http_reply) : option json :=
  match reply with
  | HttpResponse st d =>
      if (200 <=? st) && (st <? 300)
         && truthy d && truthy_opt (js_get d "hytale")
      then Some d else None
  | HttpError _ => None
  end.

Definition catalog_request : request := mkRequest GET NEW_API_URL.

(** The cache cell is empty or holds a catalog: a truthy document with a
    truthy [hytale] member. *)
Definition is_catalog (d : json) : Prop :=
  truthy d = true /\ truthy_opt (js_get d "hytale") = true.

Definition cache_valid (w : World) : Prop :=
  apiCache w = JNull \/ is_catalog (apiCache w).

(** The key of the catalog under which the tables of the platform are
    filed: ["mac"] on macOS, the name of the system elsewhere. *)
Definition os_key (p : Platform) : string :=
  if String.eqb (getOS p) "darwin" then "mac" else getOS p.

(** The table [apiData.hytale[branch][osKey]] of a catalog, when every step
    of the path is there and truthy. *)
Definition os_table (p : Platform) (api : json) (branch : string) : option json :=
  match js_get api "hytale" with
  | None | Some JNull => None
  | Some hytale =>
      match js_get hytale branch with
      | Some branchData =>
          if truthy branchData
          then match js_get_opt (Some branchData) (os_key p) with
               | Some osData => if truthy osData then Some osData else None
               | None => None
               end
          else None
      | None => None
      end
  end.

(** The message of the error raised when [os_table] is [None]. *)
Definition table_error (p : Platform) (api : json) (branch : string) : string :=
  match js_get api "hytale" with
  | None | Some JNull =>
      "Cannot read properties of undefined (reading '" ++ branch ++ "')"
  | Some _ => "No data found for branch: " ++ branch ++ ", OS: " ++ os_key p
  end.

(** The keys of a table that name an archive, and the build number in the
    name of a key (0 when the name carries none). *)
Definition pwr_keys (osData : json) : list string :=
  filter (fun key => endsWith key ".pwr") (js_keys osData).

Definition key_build (key : string) : Z :=
  match match_v_digits key with
  | Some digits => Z.of_N (decimal_value digits)
  | None => 0
  end.

(** The largest build number among the archive keys of a table. *)
Definition latest_build (osData : json) : option Z :=
  match map key_build (pwr_keys osData) with
  | [] => None
  | first :: others => Some (fold_left Z.max others first)
  end.

(** The archive keys of a table carry safe build numbers. *)
Definition safe_keys (osData : json) : Prop :=
  forall key, In key (pwr_keys osData) -> key_build key <= MAX_SAFE_INTEGER.

(** The archive file name of a version on the platform; none on a system
    other than Windows, Linux and macOS. *)
Definition platform_file_name (p : Platform) (version : string) : option string :=
  if String.eqb (getOS p) "windows" then Some (version ++ "-windows-amd64.pwr")
  else if String.eqb (getOS p) "linux" then Some (version ++ "-linux-amd64.pwr")
  else if String.eqb (getOS p) "darwin" then Some (version ++ "-darwin-arm64.pwr")
  else None.

(** The address [fetchPatchManifest] asks for the manifest of a branch. *)
Definition manifest_url (p : Platform) (branch : string) : string :=
  MANIFEST_API ++ "?branch=" ++ branch ++ "&os=" ++ getOS p
    ++ "&arch=" ++ getArch p.

(** ** A platform and worlds for the examples *)

(** SHA-256 on the contents the examples use (the digests of the empty
    file and of ["abc"]). *)
Definition sample_sha256_hex (content : string) : string :=
  if String.eqb content "abc"
  then "ba7816bf8f01cfea414140de5dae2223b00361a396177a9cb410ff61f20015ad"
  else "e3b0c44298fc1c149afbf4c8996fb92427ae41e4649b934ca495991b7852b855".

(** A Linux machine whose [smartRequest] behaves as a plain axios GET. *)
Definition linux : Platform :=
  mkPlatform "linux" "amd64" (axios GET) sample_sha256_hex.

(** A network that serves fixed documents per URL, whatever came before:
    the catalog, the patch manifest and the legacy version document, when
    given, and [200] to the existence probe of the builds of [archives]. *)
Definition sample_network (catalog manifest legacy : option json)
    (archives : list Z) : list request -> request -> http_reply :=
  fun _ r =>
    let serve (doc : option json) :=
      match doc with
      | Some d => HttpResponse 200 d
      | None => HttpError "connect ECONNREFUSED"
      end in
    match req_method r with
    | GET =>
        if String.eqb (req_url r) NEW_API_URL then serve catalog
        else if prefix MANIFEST_API (req_url r) then serve manifest
        else serve legacy
    | HEAD =>
        if existsb (fun i => String.eqb (req_url r)
                               (buildArchiveUrl linux (Int i) "release")) archives
        then HttpResponse 200 JNull
        else HttpResponse 404 JNull
    end.

Definition sample_files (path : string) : option string :=
  if String.eqb path "/tmp/8.pwr" then Some "abc" else None.

(** The manifest with one entry, for build 8. *)
Definition manifest_with (entry : json) : json :=
  JObj [("patches", JObj [("8", entry)])].

Definition sample_catalog : json :=
  JObj [("hytale",
         JObj [("release",
                JObj [("linux",
                       JObj [("v7-linux-amd64.pwr", JStr "https://cdn/7");
                             ("v12-linux-amd64.pwr", JStr "https://cdn/12")])])])].

(** Two manifest entries with a patch URL and the proper-patch mark: one
    declares build 5 as the source of its delta, the other declares none. *)
Definition entry_from_5 : json :=
  JObj [("from", JNum 5); ("patch_url", JStr "x"); ("proper_patch", JBool true)].

Definition entry_without_from : json :=
  JObj [("patch_url", JStr "x"); ("proper_patch", JBool true)].

(** A world whose patch manifest holds one entry, for build 8; the catalog
    and the legacy endpoint are down. *)
Definition delta_world (entry : json) : World :=
  initial_world 0 (sample_network None (Some (manifest_with entry)) None [])
                sample_files.

(** A world whose providers are all down. *)
Definition offline_world : World :=
  initial_world 0 (sample_network None None None []) sample_files.

(** A world where the archives of builds 5, 6, 7, 9, 10 and 11 exist. *)
Definition probe_world : World :=
  initial_world 0 (sample_network None None None [5; 6; 7; 9; 10; 11])
                sample_files.

(** The same world at a later reading of the clock. *)
Definition at_time (now : Z) (w : World) : World :=
  mkWorld (apiCache w) (apiCacheTime w) now (network w) (requests w)
          (files w) (opened w).


(** A world whose catalog is up, and one where only the legacy endpoint
    answers, with version ["v9"]. *)
Definition catalog_world : World :=
  initial_world 1000 (sample_network (Some sample_catalog) None None [])
                sample_files.



(** The plan item of target ["v8"] on a manifest whose entry for build 8
    is [entry_from_5]. *)
Definition details_from_5 : VersionDetails :=
  version_details linux (Some "v8") "release" (JObj [("8", entry_from_5)]).

(** [catalog_world] after a first call of [fetchNewAPI], 59999 ms later. *)
Definition cached_world : World :=
  at_time 60999 (snd (fetchNewAPI catalog_world)).




(* ===================================================================== *)
(** * Part II: properties                                                 *)
(* ===================================================================== *)

(** A closed instance of [safe] is settled by evaluation. *)
Ltac safe_integer := vm_compute; split; discriminate.

(** ** Characters *)

(** A character of one class is not a given character that lies outside
    the class. *)
Ltac other_char H c0 :=
  match goal with
  | |- Ascii.eqb ?c c0 = false =>
      destruct (Ascii.eqb_spec c c0) as [->|_];
      [vm_compute in H; discriminate H | reflexivity]
  end.

Lemma digit_not_v c : is_digit c = true -> Ascii.eqb c "v" = false.
Proof. intros H. other_char H "v"%char. Qed.

Lemma digit_not_minus c : is_digit c = true -> Ascii.eqb c "-" = false.
Proof. intros H. other_char H "-"%char. Qed.

Lemma digit_not_plus c : is_digit c = true -> Ascii.eqb c "+" = false.
Proof. intros H. other_char H "+"%char. Qed.

Lemma digit_not_x c : is_digit c = true -> Ascii.eqb c "x" = false.
Proof. intros H. other_char H "x"%char. Qed.

Lemma digit_not_X c : is_digit c = true -> Ascii.eqb c "X" = false.
Proof. intros H. other_char H "X"%char. Qed.

Lemma digit_not_space c : is_digit c = true -> is_white_space c = false.
Proof.
  unfold is_digit, is_white_space. intros H.
  apply andb_true_iff in H. destruct H as [H1 H2].
  apply N.leb_le in H1. apply N.leb_le in H2.
  repeat rewrite orb_false_iff. repeat split.
  - apply andb_false_iff. right. apply N.leb_gt. lia.
  - apply N.eqb_neq. lia.
  - apply N.eqb_neq. lia.
Qed.

(** ** Runs of characters *)

Lemma take_while_all f s : string_forall f s = true -> take_while f s = s.
Proof.
  induction s as [|c s IH]; simpl; intros H; [reflexivity|].
  apply andb_true_iff in H. destruct H as [Hc Hs].
  rewrite Hc, IH by assumption. reflexivity.
Qed.

Lemma drop_while_all f s : string_forall f s = true -> drop_while f s = "".
Proof.
  induction s as [|c s IH]; simpl; intros H; [reflexivity|].
  apply andb_true_iff in H. destruct H as [Hc Hs].
  rewrite Hc. auto.
Qed.

Lemma take_while_forall f s : string_forall f (take_while f s) = true.
Proof.
  induction s as [|c s IH]; simpl; [reflexivity|].
  destruct (f c) eqn:Hc; simpl; [rewrite Hc, IH|]; reflexivity.
Qed.

Lemma take_while_app f s rest :
  string_forall f s = true -> take_while f rest = "" ->
  take_while f (s ++ rest) = s.
Proof.
  induction s as [|c s IH]; simpl; intros H Hr; [assumption|].
  apply andb_true_iff in H. destruct H as [Hc Hs].
  rewrite Hc, IH by assumption. reflexivity.
Qed.

Lemma drop_while_app f s rest :
  string_forall f s = true -> drop_while f (s ++ rest) = drop_while f rest.
Proof.
  induction s as [|c s IH]; simpl; intros H; [reflexivity|].
  apply andb_true_iff in H. destruct H as [Hc Hs].
  rewrite Hc. auto.
Qed.

Lemma no_leading_digit rest :
  starts_with_digit rest = false ->
  take_while is_digit rest = "" /\ drop_while is_digit rest = rest.
Proof.
  destruct rest as [|c r]; simpl; [auto|]. intros ->. auto.
Qed.

Lemma digit_run_spec s :
  digit_run s = true <-> s <> "" /\ string_forall is_digit s = true.
Proof.
  unfold digit_run. rewrite andb_true_iff, negb_true_iff.
  destruct s; simpl; split; intros [H1 H2]; split; congruence.
Qed.

(** ** Decimal notation *)

Lemma uint_string_digits d :
  string_forall is_digit (NilEmpty.string_of_uint d) = true.
Proof. induction d; simpl; auto. Qed.

Lemma radix_value_uint d acc :
  radix_value 10 digit_value (NilEmpty.string_of_uint d) (Npos acc)
  = Npos (Pos.of_uint_acc d acc).
Proof.
  revert acc.
  induction d; intros acc;
    cbn [NilEmpty.string_of_uint radix_value Pos.of_uint_acc];
    [reflexivity|..];
    rewrite <- IHd; f_equal;
    match goal with
    | |- context [digit_value ?c] =>
        let v := eval vm_compute in (digit_value c) in
        change (digit_value c) with v
    end; lia.
Qed.

Lemma decimal_value_uint d :
  decimal_value (NilEmpty.string_of_uint d) = N.of_uint d.
Proof.
  unfold decimal_value, N.of_uint.
  induction d;
    cbn [NilEmpty.string_of_uint radix_value Pos.of_uint];
    [reflexivity | exact IHd | ..];
    rewrite <- radix_value_uint; reflexivity.
Qed.

Lemma N_to_string_unfold n :
  N_to_string n = NilEmpty.string_of_uint (N.to_uint n).
Proof.
  unfold N_to_string, NilZero.string_of_uint.
  destruct (N.to_uint n) eqn:E; try reflexivity.
  destruct n as [|q]; [discriminate|].
  exfalso. pose proof (DecimalN.Unsigned.of_to (Npos q)) as H.
  rewrite E in H. discriminate.
Qed.

Lemma N_to_string_value n : decimal_value (N_to_string n) = n.
Proof.
  rewrite N_to_string_unfold, decimal_value_uint.
  apply DecimalN.Unsigned.of_to.
Qed.

Lemma N_to_string_digits n : string_forall is_digit (N_to_string n) = true.
Proof. rewrite N_to_string_unfold. apply uint_string_digits. Qed.

Lemma N_to_string_digit_run n : digit_run (N_to_string n) = true.
Proof.
  apply digit_run_spec. split; [|apply N_to_string_digits].
  unfold N_to_string, NilZero.string_of_uint.
  destruct (N.to_uint n) eqn:E; simpl; discriminate.
Qed.

(** ** [parseInt] on a run of digits *)

Lemma parse_digits_run sign ds :
  digit_run ds = true ->
  parse_digits sign is_digit decimal_value ds = Int (sign * Z.of_N (decimal_value ds)).
Proof.
  intros H. apply digit_run_spec in H. destruct H as [Hne Hall].
  unfold parse_digits. rewrite take_while_all by assumption.
  destruct ds; [congruence | reflexivity].
Qed.

Lemma parse_unsigned_run sign ds :
  digit_run ds = true ->
  parse_unsigned sign ds = Int (sign * Z.of_N (decimal_value ds)).
Proof.
  intros H. rewrite <- parse_digits_run by assumption.
  apply digit_run_spec in H. destruct H as [_ Hall].
  destruct ds as [|c1 [|c2 r]]; try reflexivity.
  simpl in Hall. apply andb_true_iff in Hall. destruct Hall as [_ Hall].
  apply andb_true_iff in Hall. destruct Hall as [H2 _].
  unfold parse_unsigned.
  rewrite (digit_not_x _ H2), (digit_not_X _ H2), andb_false_r. reflexivity.
Qed.

Lemma parseInt_run ds :
  digit_run ds = true -> parseInt ds = Int (Z.of_N (decimal_value ds)).
Proof.
  intros H. pose proof (parse_unsigned_run 1 ds H) as HP.
  rewrite Z.mul_1_l in HP.
  apply digit_run_spec in H. destruct H as [Hne Hall].
  destruct ds as [|c r]; [congruence|].
  simpl in Hall. apply andb_true_iff in Hall. destruct Hall as [Hc _].
  unfold parseInt. cbn [drop_while].
  rewrite (digit_not_space _ Hc), (digit_not_minus _ Hc), (digit_not_plus _ Hc).
  exact HP.
Qed.

(** ** The regular expressions *)

(** What [/v(\d+)/] and [/(\d+)\.pwr/] capture is a run of digits. *)
Lemma match_v_digits_run s ds : match_v_digits s = Some ds -> digit_run ds = true.
Proof.
  induction s as [|c s IH]; simpl; [discriminate|].
  destruct (Ascii.eqb c "v" && starts_with_digit s) eqn:E; [|exact IH].
  intros [= <-]. apply andb_true_iff in E. destruct E as [_ E].
  unfold digit_run. rewrite take_while_forall, andb_true_r.
  destruct s as [|d s]; simpl in *; [discriminate|]. rewrite E. reflexivity.
Qed.

Lemma match_digits_pwr_run s ds :
  match_digits_pwr s = Some ds -> digit_run ds = true.
Proof.
  induction s as [|c s IH]; [discriminate|].
  cbn [match_digits_pwr].
  destruct (is_digit c && prefix ".pwr" (drop_while is_digit (String c s))) eqn:E;
    [|exact IH].
  intros [= <-]. apply andb_true_iff in E. destruct E as [E _].
  apply digit_run_spec. split.
  - simpl. rewrite E. discriminate.
  - exact (take_while_forall is_digit (String c s)).
Qed.

(** A ["v"] with digits behind it is where [/v(\d+)/] matches, when the
    string starts with it. *)
Lemma match_v_digits_head ds rest :
  digit_run ds = true -> starts_with_digit rest = false ->
  match_v_digits ("v" ++ ds ++ rest) = Some ds.
Proof.
  intros H Hr. apply digit_run_spec in H. destruct H as [Hne Hall].
  apply no_leading_digit in Hr. destruct Hr as [Hr _].
  cbn [append match_v_digits].
  replace (starts_with_digit (ds ++ rest)) with true.
  - cbn. rewrite take_while_app by assumption. reflexivity.
  - destruct ds as [|c r]; [congruence|]. simpl in *.
    apply andb_true_iff in Hall. destruct Hall as [-> _]. reflexivity.
Qed.

(** Digits in front of a string are skipped by [/v(\d+)/]. *)
Lemma match_v_digits_skip ds rest :
  string_forall is_digit ds = true ->
  match_v_digits (ds ++ rest) = match_v_digits rest.
Proof.
  induction ds as [|c r IH]; simpl; intros H; [reflexivity|].
  apply andb_true_iff in H. destruct H as [Hc Hr].
  rewrite (digit_not_v _ Hc). simpl. auto.
Qed.

Lemma match_v_digits_none ds :
  string_forall is_digit ds = true -> match_v_digits ds = None.
Proof.
  intros H. pose proof (match_v_digits_skip ds "" H) as E.
  assert (A : forall s, s ++ "" = s) by (induction s; simpl; congruence).
  rewrite A in E. exact E.
Qed.

Lemma match_digits_pwr_head ds :
  digit_run ds = true -> match_digits_pwr (ds ++ ".pwr") = Some ds.
Proof.
  intros H. apply digit_run_spec in H. destruct H as [Hne Hall].
  destruct ds as [|c r]; [congruence|].
  change (String c r ++ ".pwr") with (String c (r ++ ".pwr")).
  cbn [match_digits_pwr].
  change (String c (r ++ ".pwr")) with (String c r ++ ".pwr").
  rewrite drop_while_app, take_while_app by (assumption || reflexivity).
  simpl in Hall. apply andb_true_iff in Hall. destruct Hall as [-> _].
  reflexivity.
Qed.

Lemma match_digits_pwr_none ds :
  string_forall is_digit ds = true -> match_digits_pwr ds = None.
Proof.
  induction ds as [|c r IH]; [reflexivity|]. intros H.
  cbn [match_digits_pwr]. rewrite (drop_while_all _ _ H).
  rewrite andb_false_r. apply IH.
  simpl in H. apply andb_true_iff in H. tauto.
Qed.

(** ** Version codec *)

Lemma extractVersionNumber_v s ds :
  match_v_digits s = Some ds ->
  extractVersionNumber (Some s) = Int (Z.of_N (decimal_value ds)).
Proof.
  intros H. unfold extractVersionNumber. rewrite H.
  destruct s; [discriminate|]. simpl is_empty. cbv iota.
  apply parseInt_run. eapply match_v_digits_run; eassumption.
Qed.

Lemma extractVersionNumber_pwr s ds :
  match_v_digits s = None -> match_digits_pwr s = Some ds ->
  extractVersionNumber (Some s) = Int (Z.of_N (decimal_value ds)).
Proof.
  intros Hv H. unfold extractVersionNumber. rewrite Hv, H.
  destruct s; [discriminate|]. simpl is_empty. cbv iota.
  apply parseInt_run. eapply match_digits_pwr_run; eassumption.
Qed.

Lemma extractVersionNumber_bare s :
  match_v_digits s = None -> match_digits_pwr s = None ->
  extractVersionNumber (Some s)
  = match parseInt s with Int z => Int z | NaN => Int 0 end.
Proof.
  intros Hv Hp. unfold extractVersionNumber. rewrite Hv, Hp.
  destruct s; [reflexivity|]. simpl is_empty. cbv iota.
  destruct (parseInt (String a s)); reflexivity.
Qed.

(** The codec never yields [NaN]: it returns the integer [build version]. *)
Lemma extractVersionNumber_build version :
  extractVersionNumber version = Int (build version).
Proof.
  unfold build. destruct version as [s|]; [|reflexivity].
  destruct (match_v_digits s) as [ds|] eqn:Hv.
  { rewrite (extractVersionNumber_v _ _ Hv). reflexivity. }
  destruct (match_digits_pwr s) as [ds|] eqn:Hp.
  { rewrite (extractVersionNumber_pwr _ _ Hv Hp). reflexivity. }
  rewrite (extractVersionNumber_bare _ Hv Hp).
  destruct (parseInt s); reflexivity.
Qed.

Lemma parseInt_Z_to_string z : parseInt (Z_to_string z) = Int z.
Proof.
  destruct z as [|q|q]; [reflexivity| |].
  - unfold Z_to_string. rewrite parseInt_run by apply N_to_string_digit_run.
    rewrite N_to_string_value. reflexivity.
  - unfold Z_to_string, parseInt. cbn [append drop_while].
    change (is_white_space "-") with false. cbv iota.
    change (Ascii.eqb "-" "-") with true. cbv iota.
    rewrite parse_unsigned_run by apply N_to_string_digit_run.
    rewrite N_to_string_value. reflexivity.
Qed.

Lemma Z_to_string_no_match z :
  match_v_digits (Z_to_string z) = None /\ match_digits_pwr (Z_to_string z) = None.
Proof.
  destruct z as [|q|q]; [split; reflexivity | |]; unfold Z_to_string.
  - split; [apply match_v_digits_none | apply match_digits_pwr_none];
      apply N_to_string_digits.
  - cbn [append match_v_digits match_digits_pwr].
    change (Ascii.eqb "-" "v") with false. change (is_digit "-") with false.
    rewrite !andb_false_l.
    split; [apply match_v_digits_none | apply match_digits_pwr_none];
      apply N_to_string_digits.
Qed.

(** C3. For safe integers (magnitude at most 2^53 - 1, where the code's
    numbers are exact), [extractVersionNumber] returns [n] on a string of
    the form [v<n>], also when more text follows the digits (as in
    [v<n>-<os>-<arch>.<ext>]); returns [n] on [<n>.pwr]; returns the integer
    on any other string that [parseInt] reads as an integer, such as a bare
    decimal integer; and returns 0 on every input that matches none of these,
    [null] and the empty string included.  The patterns are tried in that
    order: what [/v(\d+)/] captures wins, then what [/(\d+)\.pwr/] captures,
    then [parseInt] of the whole string.  No input makes it throw or yield
    [NaN]. *)
Theorem extractVersionNumber_patterns :
  (forall (n : N) (rest : string),
      safe (Z.of_N n) ->
      starts_with_digit rest = false ->
      extractVersionNumber (Some ("v" ++ N_to_string n ++ rest)) = Int (Z.of_N n))
  /\ (forall n : N,
      safe (Z.of_N n) ->
      extractVersionNumber (Some (N_to_string n ++ ".pwr")) = Int (Z.of_N n))
  /\ (forall (s : string) (z : Z),
      match_v_digits s = None -> match_digits_pwr s = None ->
      parseInt s = Int z -> safe z ->
      extractVersionNumber (Some s) = Int z)
  /\ (forall z : Z,
      safe z -> extractVersionNumber (Some (Z_to_string z)) = Int z)
  /\ (forall s : string,
      match_v_digits s = None -> match_digits_pwr s = None ->
      parseInt s = NaN ->
      extractVersionNumber (Some s) = Int 0)
  /\ extractVersionNumber None = Int 0
  /\ extractVersionNumber (Some "") = Int 0
  /\ (forall s ds : string,
      match_v_digits s = Some ds ->
      safe (Z.of_N (decimal_value ds)) ->
      extractVersionNumber (Some s) = Int (Z.of_N (decimal_value ds)))
  /\ (forall s ds : string,
      match_v_digits s = None -> match_digits_pwr s = Some ds ->
      safe (Z.of_N (decimal_value ds)) ->
      extractVersionNumber (Some s) = Int (Z.of_N (decimal_value ds)))
  /\ (forall version : option string,
      isNaN (extractVersionNumber version) = false).
Proof.
  repeat apply conj.
  - intros n rest _ Hr.
    rewrite (extractVersionNumber_v _ (N_to_string n)).
    + rewrite N_to_string_value. reflexivity.
    + apply match_v_digits_head; [apply N_to_string_digit_run | assumption].
  - intros n _.
    rewrite (extractVersionNumber_pwr _ (N_to_string n)).
    + rewrite N_to_string_value. reflexivity.
    + rewrite match_v_digits_skip by apply N_to_string_digits. reflexivity.
    + apply match_digits_pwr_head, N_to_string_digit_run.
  - intros s z Hv Hp Hi _. rewrite extractVersionNumber_bare, Hi; auto.
  - intros z _. destruct (Z_to_string_no_match z) as [Hv Hp].
    rewrite extractVersionNumber_bare, parseInt_Z_to_string; auto.
  - intros s Hv Hp Hi. rewrite extractVersionNumber_bare, Hi; auto.
  - reflexivity.
  - reflexivity.
  - intros s ds H _. apply extractVersionNumber_v. exact H.
  - intros s ds Hv H _. apply extractVersionNumber_pwr; assumption.
  - intros version. rewrite extractVersionNumber_build. reflexivity.
Qed.

Lemma extractVersionNumber_patterns_witness :
  extractVersionNumber (Some "v8-windows-amd64.pwr") = Int 8
  /\ extractVersionNumber (Some "12abc") = Int 12
  /\ extractVersionNumber (Some "build") = Int 0
  /\ extractVersionNumber (Some "7.pwr-v3") = Int 3
  /\ extractVersionNumber (Some "12 7.pwr") = Int 7.
Proof.
  destruct extractVersionNumber_patterns
    as (Hv & _ & Hi & _ & Hn & _ & _ & Hfirst & Hsecond & _).
  repeat apply conj.
  - apply (Hv 8%N "-windows-amd64.pwr"); [safe_integer | reflexivity].
  - apply (Hi "12abc" 12); try reflexivity. safe_integer.
  - apply (Hn "build"); reflexivity.
  - apply (Hfirst "7.pwr-v3" "3"); [reflexivity | safe_integer].
  - apply (Hsecond "12 7.pwr" "7"); try reflexivity. safe_integer.
Defined.

(** ** Patch planner: the plan item *)

Lemma num_eqb_build a b :
  num_eqb (extractVersionNumber a) (extractVersionNumber b) = true
  <-> build a = build b.
Proof.
  rewrite !extractVersionNumber_build. simpl. apply Z.eqb_eq.
Qed.

Lemma js_or_truthy a b : truthy b = true -> truthy (js_or a b) = true.
Proof.
  intros H. destruct a as [x|]; simpl; [|assumption].
  destruct (truthy x) eqn:T; assumption.
Qed.

(** The manifest fetch never throws, and what it returns is an object or
    another truthy value. *)
Lemma fetchPatchManifest_returns p branch w :
  exists manifest w',
    fetchPatchManifest p branch w = (Returned manifest, w')
    /\ truthy manifest = true.
Proof.
  unfold fetchPatchManifest, try_catch, bind.
  destruct (smartRequest p _ w) as [[r|e] w1];
    [|do 2 eexists; split; reflexivity].
  unfold member.
  destruct (data r); unfold throw, ret;
    do 2 eexists;
    (split; [reflexivity | try reflexivity; apply js_or_truthy; reflexivity]).
Qed.

Lemma extractVersionDetails_returns p targetVersion branch w :
  exists manifest w',
    fetchPatchManifest p branch w = (Returned manifest, w')
    /\ extractVersionDetails p targetVersion branch w
       = (Returned (version_details p targetVersion branch manifest), w').
Proof.
  destruct (fetchPatchManifest_returns p branch w) as (m & w' & E & _).
  exists m, w'. split; [assumption|].
  unfold extractVersionDetails, bind. rewrite E. reflexivity.
Qed.

(** ** Patch planner: [canUseDifferentialUpdate] *)

Lemma canUseDifferentialUpdate_iff currentVersion targetDetails :
  canUseDifferentialUpdate currentVersion targetDetails = true
  <-> exists details,
        targetDetails = Some details
        /\ truthy (differentialUrl details) = true
        /\ isDifferential details = true
        /\ absent currentVersion = false
        /\ build currentVersion = build (sourceVersion details).
Proof.
  unfold canUseDifferentialUpdate. split.
  - destruct targetDetails as [d|]; [|discriminate].
    destruct (truthy (differentialUrl d)) eqn:Hu; [|discriminate].
    destruct (isDifferential d) eqn:Hd; [|discriminate].
    destruct (absent currentVersion) eqn:Ha; [discriminate|]. simpl.
    intros H. exists d. apply num_eqb_build in H. auto.
  - intros (d & -> & -> & -> & -> & H). simpl. apply num_eqb_build. exact H.
Qed.

(** C1. [canUseDifferentialUpdate] returns true exactly when the plan item
    is there, its differential URL is there, it is marked differential, a
    current version is there and the build parsed from the current version
    equals the build parsed from the item's source version; each guard that
    fails alone gives false.  With source version ["5.pwr"] (an entry whose
    [from] is 5), a differential URL and the differential mark, the answer
    is true for current version ["v5"] and false for ["v4"]. *)
Theorem canUseDifferentialUpdate_guards :
  (forall currentVersion targetDetails,
      canUseDifferentialUpdate currentVersion targetDetails = true
      <-> exists details,
            targetDetails = Some details
            /\ truthy (differentialUrl details) = true
            /\ isDifferential details = true
            /\ absent currentVersion = false
            /\ build currentVersion = build (sourceVersion details))
  /\ (forall currentVersion,
      canUseDifferentialUpdate currentVersion None = false)
  /\ (forall currentVersion details,
      truthy (differentialUrl details) = false ->
      canUseDifferentialUpdate currentVersion (Some details) = false)
  /\ (forall currentVersion details,
      isDifferential details = false ->
      canUseDifferentialUpdate currentVersion (Some details) = false)
  /\ (forall currentVersion details,
      absent currentVersion = true ->
      canUseDifferentialUpdate currentVersion (Some details) = false)
  /\ (forall currentVersion details,
      build currentVersion <> build (sourceVersion details) ->
      canUseDifferentialUpdate currentVersion (Some details) = false)
  /\ (forall details,
      truthy (differentialUrl details) = true ->
      isDifferential details = true ->
      sourceVersion details = Some "5.pwr" ->
      canUseDifferentialUpdate (Some "v5") (Some details) = true
      /\ canUseDifferentialUpdate (Some "v4") (Some details) = false).
Proof.
  split; [exact canUseDifferentialUpdate_iff|].
  assert (G : forall cv td,
             ~ (exists d, td = Some d
                  /\ truthy (differentialUrl d) = true
                  /\ isDifferential d = true
                  /\ absent cv = false
                  /\ build cv = build (sourceVersion d)) ->
             canUseDifferentialUpdate cv td = false).
  { intros cv td H. apply not_true_is_false. intros E.
    apply H, canUseDifferentialUpdate_iff, E. }
  repeat apply conj.
  - intros cv. apply G. intros (d & E & _). discriminate.
  - intros cv d H. apply G. intros (d' & [= <-] & E & _). congruence.
  - intros cv d H. apply G. intros (d' & [= <-] & _ & E & _). congruence.
  - intros cv d H. apply G. intros (d' & [= <-] & _ & _ & E & _). congruence.
  - intros cv d H. apply G. intros (d' & [= <-] & _ & _ & _ & E). congruence.
  - intros d Hu Hd Hs. split.
    + apply canUseDifferentialUpdate_iff. exists d. rewrite Hs.
      repeat split; assumption.
    + apply G. intros (d' & [= <-] & _ & _ & _ & E). rewrite Hs in E.
      vm_compute in E. discriminate.
Qed.

(** On the plan item of an entry [{from: 5, patch_url: "x", proper_patch:
    true}]. *)
Lemma canUseDifferentialUpdate_guards_witness :
  canUseDifferentialUpdate (Some "v5") (Some details_from_5) = true
  /\ canUseDifferentialUpdate (Some "v4") (Some details_from_5) = false
  /\ canUseDifferentialUpdate None (Some details_from_5) = false.
Proof.
  destruct canUseDifferentialUpdate_guards as (_ & _ & _ & _ & Ha & _ & He).
  split; [|split].
  - apply (He details_from_5); reflexivity.
  - apply (He details_from_5); reflexivity.
  - apply (Ha None details_from_5). reflexivity.
Defined.

(** ** Patch planner: the source version of a plan item *)

Lemma extractVersionNumber_N_pwr n :
  extractVersionNumber (Some (N_to_string n ++ ".pwr")) = Int (Z.of_N n).
Proof.
  rewrite (extractVersionNumber_pwr _ (N_to_string n)).
  - rewrite N_to_string_value. reflexivity.
  - rewrite match_v_digits_skip by apply N_to_string_digits. reflexivity.
  - apply match_digits_pwr_head, N_to_string_digit_run.
Qed.

(** The file name of a build parses back to the build. *)
Lemma build_pwr_name z : 0 <= z -> build (Some (pwr_name z)) = z.
Proof.
  intros H. unfold build, pwr_name.
  destruct z as [|q|q]; [reflexivity | | lia].
  change (Z_to_string (Z.pos q)) with (N_to_string (N.pos q)).
  rewrite extractVersionNumber_N_pwr. reflexivity.
Qed.

Lemma truthy_js_or_null a : truthy (js_or a JNull) = truthy_opt a.
Proof.
  destruct a as [x|]; simpl; [|reflexivity].
  destruct (truthy x) eqn:T; [assumption | reflexivity].
Qed.

(** The three shapes of the source version of a plan item. *)
Lemma sourceVersion_declared p targetVersion branch manifest from :
  js_get_opt (manifest_entry manifest targetVersion) "from" = Some from ->
  truthy from = true ->
  sourceVersion (version_details p targetVersion branch manifest)
  = Some (js_to_string from ++ ".pwr").
Proof.
  unfold manifest_entry. intros E T. cbn [version_details sourceVersion].
  rewrite E. simpl. rewrite T. reflexivity.
Qed.

Lemma sourceVersion_default p targetVersion branch manifest :
  truthy_opt (js_get_opt (manifest_entry manifest targetVersion) "from") = false ->
  sourceVersion (version_details p targetVersion branch manifest)
  = if 0 <? build targetVersion - 1
    then Some (pwr_name (build targetVersion - 1))
    else None.
Proof.
  unfold manifest_entry. intros T. cbn [version_details sourceVersion].
  rewrite T. rewrite extractVersionNumber_build. reflexivity.
Qed.

(** C2, as the code has it.  For safe target and current builds, the plan
    item of a target is usable as a delta from a current version only when
    the manifest entry of the target has a patch URL and is marked a proper
    patch, a current version is there, and the current build is the build
    parsed from the item's source version.  That source version is
    [<from>.pwr] when the entry declares a truthy [from], and otherwise (no
    [from], or a falsy one such as 0) the build before the target: an entry
    that declares a positive safe build [n] is used from build [n] only, an
    entry that declares none is used from build [target - 1] only (from
    build 0 when the target build is at most 1). *)
Theorem delta_source_build p targetVersion branch currentVersion w details w' :
  extractVersionDetails p targetVersion branch w = (Returned details, w') ->
  safe (build targetVersion) -> safe (build currentVersion) ->
  canUseDifferentialUpdate currentVersion (Some details) = true ->
  exists manifest,
    fetchPatchManifest p branch w = (Returned manifest, w')
    /\ let entry := manifest_entry manifest targetVersion in
       truthy_opt (js_get_opt entry "patch_url") = true
       /\ truthy_opt (js_get_opt entry "proper_patch") = true
       /\ absent currentVersion = false
       /\ ((forall from,
               js_get_opt entry "from" = Some from -> safe_json from = true) ->
           build currentVersion = build (sourceVersion details))
       /\ (forall n : Z,
              js_get_opt entry "from" = Some (JNum n) -> 0 < n -> safe n ->
              build currentVersion = n)
       /\ (forall n : N,
              js_get_opt entry "from" = Some (JStr (N_to_string n)) ->
              build currentVersion = Z.of_N n)
       /\ (truthy_opt (js_get_opt entry "from") = false ->
           1 < build targetVersion ->
           build currentVersion = build targetVersion - 1)
       /\ (truthy_opt (js_get_opt entry "from") = false ->
           build targetVersion <= 1 ->
           build currentVersion = 0)
       /\ (forall from,
              js_get_opt entry "from" = Some from -> truthy from = true ->
              safe_json from = true ->
              build currentVersion = build (Some (js_to_string from ++ ".pwr"))).
Proof.
  intros Hd _ _ Hc.
  destruct (extractVersionDetails_returns p targetVersion branch w)
    as (manifest & w1 & Hm & Hd').
  rewrite Hd' in Hd. injection Hd as <- <-.
  exists manifest. split; [assumption|]. cbv zeta.
  apply canUseDifferentialUpdate_iff in Hc.
  destruct Hc as (d & [= <-] & Hu & Hp & Ha & Hb).
  cbn [version_details differentialUrl isDifferential] in Hu, Hp.
  rewrite truthy_js_or_null in Hu.
  repeat apply conj; try assumption.
  - intros _. exact Hb.
  - intros n E Hn _. rewrite Hb.
    rewrite (sourceVersion_declared _ _ _ _ (JNum n) E).
    + apply build_pwr_name. lia.
    + simpl. apply negb_true_iff, Z.eqb_neq. lia.
  - intros n E. rewrite Hb.
    rewrite (sourceVersion_declared _ _ _ _ (JStr (N_to_string n)) E).
    + cbn [js_to_string]. unfold build.
      rewrite extractVersionNumber_N_pwr. reflexivity.
    + pose proof (N_to_string_digit_run n) as R.
      apply andb_true_iff in R. simpl. tauto.
  - intros T Hb1. rewrite Hb, sourceVersion_default by assumption.
    destruct (Z.ltb_spec 0 (build targetVersion - 1)); [|lia].
    apply build_pwr_name. lia.
  - intros T Hb1. rewrite Hb, sourceVersion_default by assumption.
    destruct (Z.ltb_spec 0 (build targetVersion - 1)); [lia|]. reflexivity.
  - intros from E T _. rewrite Hb.
    rewrite (sourceVersion_declared _ _ _ _ from E T). reflexivity.
Qed.

Lemma delta_source_build_witness :
  exists details w',
    extractVersionDetails linux (Some "v8") "release" (delta_world entry_from_5)
    = (Returned details, w')
    /\ canUseDifferentialUpdate (Some "v5") (Some details) = true
    /\ build (Some "v5") = 5.
Proof.
  destruct (extractVersionDetails linux (Some "v8") "release"
              (delta_world entry_from_5))
    as [[details|e] w'] eqn:E; [|vm_compute in E; discriminate E].
  assert (C : canUseDifferentialUpdate (Some "v5") (Some details) = true).
  { vm_compute in E. injection E as <- _. reflexivity. }
  exists details, w'. split; [reflexivity|]. split; [exact C|].
  assert (S8 : safe (build (Some "v8"))) by safe_integer.
  assert (S5 : safe (build (Some "v5"))) by safe_integer.
  destruct (delta_source_build linux (Some "v8") "release" (Some "v5")
              (delta_world entry_from_5) details w' E S8 S5 C)
    as (manifest & Hm & _ & _ & _ & _ & Hn & _).
  apply (Hn 5); [|lia|safe_integer].
  vm_compute in Hm. injection Hm as <- _. reflexivity.
Defined.

(** C2, as the specification states it, fails: the entry for build 8 below
    declares no source build, and the planner still judges its delta
    applicable from build 7. *)
Lemma delta_without_declared_source :
  js_get entry_without_from "from" = None
  /\ exists details w',
       extractVersionDetails linux (Some "v8") "release"
         (delta_world entry_without_from)
       = (Returned details, w')
       /\ canUseDifferentialUpdate (Some "v7") (Some details) = true.
Proof.
  split; [reflexivity|].
  destruct (extractVersionDetails linux (Some "v8") "release"
              (delta_world entry_without_from))
    as [[details|e] w'] eqn:E; vm_compute in E; [|discriminate E].
  injection E as <- <-. do 2 eexists. split; reflexivity.
Qed.




(** ** Ranges of builds *)


Lemma Zdown_In hi n i : In i (Zdown hi n) <-> hi - Z.of_nat n < i <= hi.
Proof.
  revert hi. induction n as [|n IH]; intros hi; simpl Zdown.
  - simpl. lia.
  - simpl In. rewrite IH. lia.
Qed.




Lemma probe_range_In latest maxProbe i :
  In i (probe_range latest maxProbe)
  <-> Z.max 1 (latest - maxProbe) <= i <= latest.
Proof. unfold probe_range. rewrite Zdown_In. lia. Qed.

(** ** Patch planner: [needsIntermediatePatches] *)

Lemma intermediates_loop_step target i intermediates :
  intermediates_loop target i intermediates
  = if num_leb i target
    then intermediates_loop target (num_add i (Int 1))
           (intermediates ++ [num_to_string i ++ ".pwr"])
    else intermediates.
Proof.
  funelim (intermediates_loop target i intermediates);
    match goal with e : num_leb _ _ = _ |- _ => rewrite e end; reflexivity.
Qed.

(** The loop appends the file names of the builds from [i] to [target]. *)
Lemma intermediates_loop_spec n : forall target i intermediates,
  n = Z.to_nat (target + 1 - i) ->
  intermediates_loop (Int target) (Int i) intermediates
  = (intermediates ++ map pwr_name (Zup i n))%list.
Proof.
  induction n as [|n IH]; intros target i acc Hn;
    rewrite intermediates_loop_step; cbn [num_leb].
  - destruct (Z.leb_spec i target); [lia|]. simpl. rewrite app_nil_r. reflexivity.
  - destruct (Z.leb_spec i target); [|lia].
    cbn [num_add]. rewrite IH by lia.
    rewrite <- app_assoc. reflexivity.
Qed.

Lemma needsIntermediatePatches_known currentVersion targetVersion :
  absent currentVersion = false ->
  needsIntermediatePatches currentVersion targetVersion
  = map pwr_name (builds_between (build currentVersion) (build targetVersion)).
Proof.
  intros H. unfold needsIntermediatePatches. rewrite H.
  rewrite !extractVersionNumber_build. cbn [num_add].
  rewrite (intermediates_loop_spec
             (Z.to_nat (build targetVersion - build currentVersion)))
    by (f_equal; lia).
  reflexivity.
Qed.



(** C10. When the current build is at or above the target build (the same
    version, or a downgrade), both builds being safe integers,
    [needsIntermediatePatches] returns the empty sequence. *)
Theorem needsIntermediatePatches_no_upgrade currentVersion targetVersion :
  safe (build currentVersion) -> safe (build targetVersion) ->
  build targetVersion <= build currentVersion ->
  needsIntermediatePatches currentVersion targetVersion = [].
Proof.
  intros _ _ H. destruct (absent currentVersion) eqn:A.
  - unfold needsIntermediatePatches. rewrite A. reflexivity.
  - rewrite needsIntermediatePatches_known by assumption.
    unfold builds_between.
    replace (Z.to_nat (build targetVersion - build currentVersion)) with O by lia.
    reflexivity.
Qed.

Lemma needsIntermediatePatches_no_upgrade_witness :
  needsIntermediatePatches (Some "v8") (Some "v5") = []
  /\ needsIntermediatePatches (Some "v8") (Some "8.pwr") = [].
Proof.
  split; apply needsIntermediatePatches_no_upgrade;
    try safe_integer; vm_compute; discriminate.
Defined.

(** ** Patch planner: [discoverAvailableVersions] *)

(** The existence check issues one HEAD request, never throws, and answers
    whether the reply had status 200. *)
Lemma checkArchiveExists_spec p i branch w :
  checkArchiveExists p (Int i) branch w
  = (Returned (reports_present (network w) (requests w) (probe p branch i)),
     log_request (probe p branch i) w).
Proof.
  unfold checkArchiveExists, try_catch, bind, axios, reports_present, probe.
  destruct (network w (requests w) _) as [e|st d]; [reflexivity|].
  destruct ((200 <=? st) && (st <? 300)) eqn:E; [reflexivity|].
  unfold ret. f_equal. f_equal.
  symmetry. apply Z.eqb_neq. intros ->. discriminate.
Qed.

Lemma discover_loop_step p branch latest maxProbe i available w :
  discover_loop p branch latest maxProbe i available w
  = if num_geb i (num_max (Int 1) (num_sub latest (Int maxProbe)))
    then
      bind (checkArchiveExists p i branch)
           (fun exists_ w' =>
              discover_loop p branch latest maxProbe (num_sub i (Int 1))
                (if exists_ : bool
                 then available ++ [num_to_string i ++ ".pwr"]
                 else available) w') w
    else (Returned available, w).
Proof.
  funelim (discover_loop p branch latest maxProbe i available w);
    match goal with e : num_geb _ _ = _ |- _ => rewrite e end; reflexivity.
Qed.

Lemma log_requests_nil w : log_requests [] w = w.
Proof. destruct w. unfold log_requests. simpl. rewrite app_nil_r. reflexivity. Qed.

Lemma log_requests_cons r rs w :
  log_requests rs (log_request r w) = log_requests (r :: rs) w.
Proof.
  unfold log_requests, log_request. simpl. rewrite <- app_assoc. reflexivity.
Qed.

(** From [i] on, the loop probes the builds from [i] down to the bound, in
    that order, and appends the file names of those reported present. *)
Lemma discover_loop_spec p branch latest maxProbe n : forall i available w,
  n = Z.to_nat (i + 1 - Z.max 1 (latest - maxProbe)) ->
  discover_loop p branch (Int latest) maxProbe (Int i) available w
  = (Returned
       (available
        ++ map pwr_name
             (present_builds p branch (network w) (requests w) (Zdown i n)))%list,
     log_requests (map (probe p branch) (Zdown i n)) w).
Proof.
  induction n as [|n IH]; intros i acc w Hn;
    rewrite discover_loop_step; cbn [num_sub num_max num_geb num_leb].
  - destruct (Z.leb_spec (Z.max 1 (latest - maxProbe)) i); [lia|].
    simpl. rewrite app_nil_r, log_requests_nil. reflexivity.
  - destruct (Z.leb_spec (Z.max 1 (latest - maxProbe)) i); [|lia].
    unfold bind. rewrite checkArchiveExists_spec.
    rewrite IH by lia.
    cbn [Zdown present_builds map]. rewrite log_requests_cons.
    f_equal. f_equal.
    destruct (reports_present _ _ _); cbn [app map num_to_string];
      [rewrite <- app_assoc|]; reflexivity.
Qed.




(** ** Manifest client: the catalog cache *)

Lemma axios_catalog w :
  axios GET NEW_API_URL w
  = (match network w (requests w) catalog_request with
     | HttpError message => Thrown message
     | HttpResponse st d =>
         if (200 <=? st) && (st <? 300)
         then Returned (mkResponse st d)
         else Thrown ("Request failed with status code " ++ Z_to_string st)
     end,
     log_request catalog_request w).
Proof.
  unfold axios. fold catalog_request.
  destruct (network w (requests w) catalog_request) as [e|st d]; [reflexivity|].
  destruct ((200 <=? st) && (st <? 300)); reflexivity.
Qed.

Lemma fetchNewAPI_fresh w :
  cache_fresh w = true -> fetchNewAPI w = (Returned (apiCache w), w).
Proof.
  unfold cache_fresh, fetchNewAPI, bind, date_now, read_apiCache, read_apiCacheTime.
  intros ->. reflexivity.
Qed.

Lemma fetchNewAPI_refresh w d :
  cache_fresh w = false ->
  catalog_of (network w (requests w) catalog_request) = Some d ->
  fetchNewAPI w
  = (Returned d, set_cache d (clock w) (log_request catalog_request w)).
Proof.
  unfold cache_fresh, fetchNewAPI, bind, date_now, read_apiCache, read_apiCacheTime.
  intros -> H. unfold try_catch, bind. rewrite axios_catalog.
  unfold catalog_of in H.
  destruct (network w (requests w) catalog_request) as [e|st x]; [discriminate|].
  destruct ((200 <=? st) && (st <? 300)); [|discriminate]. cbn [data].
  simpl in H.
  destruct (truthy x && truthy_opt (js_get x "hytale")); [|discriminate].
  injection H as <-. reflexivity.
Qed.

Lemma fetchNewAPI_failed w :
  cache_fresh w = false ->
  catalog_of (network w (requests w) catalog_request) = None ->
  exists e,
    fetchNewAPI w
    = (if truthy (apiCache w) then Returned (apiCache w) else Thrown e,
       log_request catalog_request w).
Proof.
  unfold cache_fresh, fetchNewAPI, bind, date_now, read_apiCache, read_apiCacheTime.
  intros -> H. unfold try_catch, bind. rewrite axios_catalog.
  unfold catalog_of in H.
  destruct (network w (requests w) catalog_request) as [e|st x].
  - exists e. unfold read_apiCache. cbn [log_request apiCache].
    destruct (truthy (apiCache w)); reflexivity.
  - destruct ((200 <=? st) && (st <? 300)).
    + cbn [data]. simpl in H.
      destruct (truthy x && truthy_opt (js_get x "hytale")); [discriminate|].
      eexists. unfold throw, read_apiCache. cbn [log_request apiCache].
      destruct (truthy (apiCache w)); reflexivity.
    + eexists. unfold read_apiCache. cbn [log_request apiCache].
      destruct (truthy (apiCache w)); reflexivity.
Qed.

(** C5. Over the cache cell [(apiCache, apiCacheTime)]: a call made while
    a cache exists and is younger than 60 seconds returns the cached
    snapshot, asks nothing of the network and leaves the cell as it is.  Any
    other call sends one request to the catalog endpoint.  When the reply
    carries a catalog, the call returns it and stores it in the cache with
    the time of the call, so that a further call less than 60 seconds later
    is served from the cache.  When the request fails or the reply lacks the
    expected structure, the call returns the prior cache, unchanged, if there
    is one, and throws if there is none. *)
Theorem fetchNewAPI_cache w :
  let reply := network w (requests w) catalog_request in
  (cache_fresh w = true -> fetchNewAPI w = (Returned (apiCache w), w))
  /\ (forall d,
      cache_fresh w = false -> catalog_of reply = Some d ->
      fetchNewAPI w
      = (Returned d, set_cache d (clock w) (log_request catalog_request w))
      /\ forall later,
           later - clock w < 60000 ->
           let w1 := at_time later (snd (fetchNewAPI w)) in
           fetchNewAPI w1 = (Returned d, w1)
           /\ requests w1 = (requests w ++ [catalog_request])%list)
  /\ (cache_fresh w = false -> catalog_of reply = None ->
      truthy (apiCache w) = true ->
      fetchNewAPI w = (Returned (apiCache w), log_request catalog_request w)
      /\ apiCache (log_request catalog_request w) = apiCache w
      /\ apiCacheTime (log_request catalog_request w) = apiCacheTime w)
  /\ (cache_fresh w = false -> catalog_of reply = None ->
      truthy (apiCache w) = false ->
      exists e, fetchNewAPI w = (Thrown e, log_request catalog_request w)).
Proof.
  cbv zeta. repeat apply conj.
  - apply fetchNewAPI_fresh.
  - intros d Hf Hc. rewrite (fetchNewAPI_refresh w d Hf Hc).
    split; [reflexivity|]. intros later Hl. cbn [snd]. split; [|reflexivity].
    rewrite fetchNewAPI_fresh; [reflexivity|].
    unfold cache_fresh, at_time, set_cache, API_CACHE_DURATION.
    cbn [apiCache apiCacheTime clock].
    apply andb_true_iff. split; [|apply Z.ltb_lt; lia].
    unfold catalog_of in Hc.
    destruct (network w (requests w) catalog_request) as [e|st x]; [discriminate|].
    destruct (truthy x) eqn:T.
    + destruct ((200 <=? st) && (st <? 300) && true
                && truthy_opt (js_get x "hytale")); [|discriminate].
      injection Hc as <-. exact T.
    + rewrite andb_false_r in Hc. discriminate.
  - intros Hf Hc Ht.
    destruct (fetchNewAPI_failed w Hf Hc) as (e & E).
    rewrite Ht in E. auto.
  - intros Hf Hc Ht.
    destruct (fetchNewAPI_failed w Hf Hc) as (e & E).
    rewrite Ht in E. eauto.
Qed.

(** A first call fills the cache at time 1000; a call at time 60999 is
    served from it without a request. *)
Lemma fetchNewAPI_cache_witness :
  fetchNewAPI catalog_world
  = (Returned sample_catalog,
     set_cache sample_catalog 1000 (log_request catalog_request catalog_world))
  /\ fetchNewAPI cached_world = (Returned sample_catalog, cached_world)
  /\ requests cached_world = [catalog_request]
  /\ exists e, fetchNewAPI offline_world
               = (Thrown e, log_request catalog_request offline_world).
Proof.
  destruct (fetchNewAPI_cache catalog_world) as (_ & Hrefresh & _).
  destruct (Hrefresh sample_catalog) as (H1 & H2); [reflexivity..|].
  destruct (H2 60999) as (H3 & H4); [vm_compute; reflexivity|].
  destruct (fetchNewAPI_cache offline_world) as (_ & _ & _ & Hthrow).
  repeat apply conj; try assumption.
  apply Hthrow; reflexivity.
Defined.

(** The cache cell only ever holds catalogs, and a catalog is all that
    [fetchNewAPI] returns. *)
Lemma catalog_of_is_catalog reply d : catalog_of reply = Some d -> is_catalog d.
Proof.
  unfold catalog_of, is_catalog. destruct reply as [e|st x]; [discriminate|].
  destruct ((200 <=? st) && (st <? 300) && truthy x
            && truthy_opt (js_get x "hytale")) eqn:E; [|discriminate].
  intros [= <-]. apply andb_true_iff in E. destruct E as [E H].
  apply andb_true_iff in E. destruct E as [_ T]. split; assumption.
Qed.

Lemma fetchNewAPI_cache_valid w :
  cache_valid w ->
  cache_valid (snd (fetchNewAPI w))
  /\ forall d, fst (fetchNewAPI w) = Returned d -> is_catalog d.
Proof.
  intros V.
  assert (C : truthy (apiCache w) = true -> is_catalog (apiCache w)).
  { intros T. destruct V as [E|V]; [rewrite E in T; discriminate | exact V]. }
  destruct (cache_fresh w) eqn:F.
  - rewrite (fetchNewAPI_fresh w F). split; [exact V|].
    intros d [= <-]. apply C.
    unfold cache_fresh in F. apply andb_true_iff in F. tauto.
  - destruct (catalog_of (network w (requests w) catalog_request)) as [x|] eqn:K.
    + rewrite (fetchNewAPI_refresh w x F K).
      pose proof (catalog_of_is_catalog _ _ K) as I.
      split; [right; exact I|]. intros d [= <-]. exact I.
    + destruct (fetchNewAPI_failed w F K) as (e & E). rewrite E.
      split; [exact V|]. cbn [fst].
      destruct (truthy (apiCache w)) eqn:T; [|discriminate].
      intros d [= <-]. apply C. reflexivity.
Qed.

(** ** Manifest client: the latest client version *)

Lemma getLatestClientVersion_primary p branch w v w1 :
  getLatestVersionFromNewAPI p branch w = (Returned v, w1) ->
  getLatestClientVersion p branch w = (Returned (JStr v), w1).
Proof.
  intros H. unfold getLatestClientVersion, try_catch, bind. rewrite H. reflexivity.
Qed.




(** ** Integrity verifier *)


Lemma str_strict_eq_true a b : str_strict_eq a b = true <-> b = JStr a.
Proof.
  destruct b as [| x | z | s | items | fields]; simpl;
    try (split; [discriminate | discriminate]).
  rewrite String.eqb_eq. split; [intros ->; reflexivity | intros [= ->]; reflexivity].
Qed.

(** C6. [validateChecksum] returns true, without opening the file, when
    no digest is expected.  When a digest is expected, it opens the file
    once, and it returns true exactly when the file can be read and the
    SHA-256 digest of its content, in hexadecimal as the hash produces it,
    is the expected value character for character; it returns false exactly
    when the file can be read and the two differ, without throwing.  The one
    way it throws is a file that cannot be read. *)
Theorem validateChecksum_compare p filePath expectedChecksum w :
  (truthy expectedChecksum = false ->
   validateChecksum p filePath expectedChecksum w = (Returned true, w))
  /\ (forall content,
      truthy expectedChecksum = true ->
      files w filePath = Some content ->
      validateChecksum p filePath expectedChecksum w
      = (Returned (str_strict_eq (sha256_hex p content) expectedChecksum),
         log_open filePath w))
  /\ (forall content expected,
      expectedChecksum = JStr expected -> expected <> "" ->
      files w filePath = Some content ->
      (fst (validateChecksum p filePath expectedChecksum w) = Returned true
       <-> sha256_hex p content = expected)
      /\ (sha256_hex p content <> expected ->
          fst (validateChecksum p filePath expectedChecksum w) = Returned false))
  /\ (truthy expectedChecksum = true ->
      (fst (validateChecksum p filePath expectedChecksum w) = Returned true
       <-> exists content,
             files w filePath = Some content
             /\ expectedChecksum = JStr (sha256_hex p content))
      /\ (fst (validateChecksum p filePath expectedChecksum w) = Returned false
          <-> exists content,
                files w filePath = Some content
                /\ expectedChecksum <> JStr (sha256_hex p content))
      /\ ((exists e, fst (validateChecksum p filePath expectedChecksum w) = Thrown e)
          <-> files w filePath = None)
      /\ snd (validateChecksum p filePath expectedChecksum w) = log_open filePath w).
Proof.
  unfold validateChecksum. repeat apply conj.
  - intros ->. reflexivity.
  - intros content -> Hf. cbn [negb]. unfold bind, computeFileChecksum.
    rewrite Hf. reflexivity.
  - intros content expected -> Hne Hf.
    assert (T : truthy (JStr expected) = true)
      by (destruct expected; [congruence | reflexivity]).
    rewrite T. cbn [negb]. unfold bind, computeFileChecksum. rewrite Hf.
    cbn [fst ret str_strict_eq].
    destruct (String.eqb_spec (sha256_hex p content) expected) as [E|N].
    + split; [tauto | congruence].
    + split; [|reflexivity]. split; [discriminate | congruence].
  - intros ->. cbn [negb]. unfold bind, computeFileChecksum.
    destruct (files w filePath) as [content|]; cbn [fst snd ret].
    + pose proof (str_strict_eq_true (sha256_hex p content) expectedChecksum) as S.
      destruct (str_strict_eq (sha256_hex p content) expectedChecksum).
      * split; [|split; [|split]].
        -- split; [|reflexivity]. intros _. exists content.
           split; [reflexivity | apply S; reflexivity].
        -- split; [discriminate|].
           intros (c & [= <-] & N). exfalso. apply N, S. reflexivity.
        -- split; [intros (e & H); discriminate | discriminate].
        -- reflexivity.
      * split; [|split; [|split]].
        -- split; [discriminate|].
           intros (c & [= <-] & E). apply S in E. discriminate.
        -- split; [|reflexivity]. intros _. exists content.
           split; [reflexivity|]. intros E. apply S in E. discriminate.
        -- split; [intros (e & H); discriminate | discriminate].
        -- reflexivity.
    + split; [|split; [|split]].
      * split; [discriminate | intros (c & H & _); discriminate].
      * split; [discriminate | intros (c & H & _); discriminate].
      * split; [intros _; reflexivity | intros _; eexists; reflexivity].
      * reflexivity.
Qed.

(** The file holds ["abc"]: its digest is accepted, the same digest in
    upper case is not, and with no expected digest the file is not opened;
    a missing file, with a digest expected, makes the call throw. *)
Lemma validateChecksum_compare_witness :
  fst (validateChecksum linux "/tmp/8.pwr"
         (JStr "ba7816bf8f01cfea414140de5dae2223b00361a396177a9cb410ff61f20015ad")
         offline_world) = Returned true
  /\ fst (validateChecksum linux "/tmp/8.pwr"
            (JStr "BA7816BF8F01CFEA414140DE5DAE2223B00361A396177A9CB410FF61F20015AD")
            offline_world) = Returned false
  /\ validateChecksum linux "/tmp/8.pwr" JNull offline_world
     = (Returned true, offline_world)
  /\ exists e,
       fst (validateChecksum linux "/tmp/missing.pwr" (JStr "00") offline_world)
       = Thrown e.
Proof.
  split; [|split; [|split]].
  - destruct (validateChecksum_compare linux "/tmp/8.pwr"
                (JStr "ba7816bf8f01cfea414140de5dae2223b00361a396177a9cb410ff61f20015ad")
                offline_world) as (_ & _ & H & _).
    destruct (H "abc" _ eq_refl) as (Hiff & _);
      [discriminate | reflexivity | apply Hiff; reflexivity].
  - destruct (validateChecksum_compare linux "/tmp/8.pwr"
                (JStr "BA7816BF8F01CFEA414140DE5DAE2223B00361A396177A9CB410FF61F20015AD")
                offline_world) as (_ & _ & H & _).
    destruct (H "abc" _ eq_refl) as (_ & Hneq);
      [discriminate | reflexivity | apply Hneq; vm_compute; discriminate].
  - destruct (validateChecksum_compare linux "/tmp/8.pwr" JNull offline_world)
      as (H & _).
    apply H. reflexivity.
  - destruct (validateChecksum_compare linux "/tmp/missing.pwr" (JStr "00")
                offline_world) as (_ & _ & _ & H).
    destruct (H eq_refl) as (_ & _ & Hthrow & _).
    apply Hthrow. reflexivity.
Defined.

(* ===================================================================== *)
(** * Part III: further properties of the module                          *)
(* ===================================================================== *)

(** ** The catalog lookups *)

Lemma key_number_build key :
  match match_v_digits key with
  | Some digits => parseInt digits
  | None => Int 0
  end = Int (key_build key).
Proof.
  unfold key_build. destruct (match_v_digits key) as [ds|] eqn:E; [|reflexivity].
  apply parseInt_run. eapply match_v_digits_run; eassumption.
Qed.

Lemma key_build_nonneg key : 0 <= key_build key.
Proof. unfold key_build. destruct (match_v_digits key); lia. Qed.

Lemma max_of_ints a l : max_of (Int a) (map Int l) = Int (fold_left Z.max l a).
Proof.
  unfold max_of. revert a. induction l as [|b l IH]; intros a; simpl; auto.
Qed.

Lemma fold_max_ge l : forall a, a <= fold_left Z.max l a.
Proof.
  induction l as [|b l IH]; intros a; simpl; [lia|].
  specialize (IH (Z.max a b)). lia.
Qed.

Lemma fold_max_upper l : forall a x, In x (a :: l) -> x <= fold_left Z.max l a.
Proof.
  induction l as [|b l IH]; intros a x H; simpl.
  - destruct H as [E|[]]. lia.
  - pose proof (fold_max_ge l (Z.max a b)) as G.
    destruct H as [E|[E|H]].
    + lia.
    + lia.
    + apply IH. right. exact H.
Qed.

Lemma fold_max_attained l : forall a, In (fold_left Z.max l a) (a :: l).
Proof.
  induction l as [|b l IH]; intros a; simpl; [auto|].
  destruct (IH (Z.max a b)) as [E|H]; [|auto].
  rewrite <- E. destruct (Z.max_spec a b) as [[_ ->]|[_ ->]]; auto.
Qed.

(** What [getLatestVersionFromNewAPI] does, step by step: the catalog of
    [fetchNewAPI], the table of the branch and platform, the largest build
    among its archive keys. *)
Lemma getLatestVersionFromNewAPI_run p branch w :
  getLatestVersionFromNewAPI p branch w
  = match fetchNewAPI w with
    | (Returned api, w1) =>
        (match os_table p api branch with
         | Some osData =>
             match latest_build osData with
             | Some m => Returned ("v" ++ Z_to_string m)
             | None => Thrown ("No .pwr files found for " ++ os_key p)
             end
         | None => Thrown (table_error p api branch)
         end, w1)
    | (Thrown e, w1) => (Thrown e, w1)
    end.
Proof.
  unfold getLatestVersionFromNewAPI, try_catch, bind.
  destruct (fetchNewAPI w) as [[api|e] w1]; [|reflexivity].
  unfold os_table, table_error, member. fold (os_key p).
  destruct (js_get api "hytale") as [h|]; [|reflexivity].
  destruct h; [reflexivity|..];
    (unfold ret;
     match goal with
     | |- context [js_get ?h branch] => destruct (js_get h branch) as [bd|]
     end; [|reflexivity];
     cbn [truthy_opt]; destruct (truthy bd); [|reflexivity];
     cbn [negb orb];
     destruct (js_get_opt (Some bd) (os_key p)) as [od|]; [|reflexivity];
     cbn [truthy_opt]; destruct (truthy od); [|reflexivity];
     cbn [negb];
     unfold latest_build, pwr_keys;
     rewrite (map_ext _ (fun key => Int (key_build key)) key_number_build);
     rewrite <- map_map;
     destruct (map key_build _) as [|a l]; [reflexivity|];
     cbn [map]; rewrite max_of_ints; reflexivity).
Qed.

Lemma getPWRUrlFromNewAPI_run p branch version w :
  getPWRUrlFromNewAPI p branch version w
  = match fetchNewAPI w with
    | (Returned api, w1) =>
        (match os_table p api branch with
         | Some osData =>
             match js_get osData (string_or_undefined (platform_file_name p version)) with
             | Some url =>
                 if truthy url then Returned url
                 else Thrown ("No URL found for "
                              ++ string_or_undefined (platform_file_name p version))
             | None => Thrown ("No URL found for "
                               ++ string_or_undefined (platform_file_name p version))
             end
         | None => Thrown (table_error p api branch)
         end, w1)
    | (Thrown e, w1) => (Thrown e, w1)
    end.
Proof.
  unfold getPWRUrlFromNewAPI, try_catch, bind.
  destruct (fetchNewAPI w) as [[api|e] w1]; [|reflexivity].
  unfold os_table, table_error, member. fold (os_key p).
  fold (platform_file_name p version).
  destruct (js_get api "hytale") as [h|]; [|reflexivity].
  destruct h; [reflexivity|..];
    (unfold ret;
     match goal with
     | |- context [js_get ?h branch] => destruct (js_get h branch) as [bd|]
     end; [|reflexivity];
     cbn [truthy_opt]; destruct (truthy bd); [|reflexivity];
     cbn [negb orb];
     destruct (js_get_opt (Some bd) (os_key p)) as [od|]; [|reflexivity];
     cbn [truthy_opt]; destruct (truthy od) eqn:T; [|reflexivity];
     cbn [negb];
     assert (N : js_get_opt (Some od)
                   (string_or_undefined (platform_file_name p version))
                 = js_get od (string_or_undefined (platform_file_name p version)))
       by (destruct od; [discriminate T | reflexivity..]);
     rewrite N;
     destruct (js_get od _) as [u|]; [|reflexivity];
     destruct (truthy u); reflexivity).
Qed.

(** ** Strings *)

Lemma append_empty_r s : s ++ "" = s.
Proof. induction s; simpl; congruence. Qed.

Lemma append_assoc_string a b c : (a ++ b) ++ c = a ++ (b ++ c).
Proof. induction a; simpl; congruence. Qed.

Lemma length_append_string a b :
  String.length (a ++ b) = (String.length a + String.length b)%nat.
Proof. induction a; simpl; congruence. Qed.

Lemma append_cancel_l a x y : a ++ x = a ++ y -> x = y.
Proof. induction a; simpl; [auto|]. intros [= H]. auto. Qed.

Lemma append_cancel_r s : forall x y, x ++ s = y ++ s -> x = y.
Proof.
  assert (L : forall x y, x ++ s = y ++ s -> String.length x = String.length y).
  { intros x y H. apply (f_equal String.length) in H.
    rewrite !length_append_string in H. lia. }
  induction x as [|c x IH]; intros [|d y] H; pose proof (L _ _ H) as HL;
    try discriminate; [reflexivity|].
  change (String c (x ++ s) = String d (y ++ s)) in H.
  injection H as -> H. f_equal. apply IH. exact H.
Qed.

Lemma substring_whole b : substring 0 (String.length b) b = b.
Proof. induction b; simpl; congruence. Qed.

Lemma substring_suffix a b :
  substring (String.length a) (String.length b) (a ++ b) = b.
Proof. induction a; simpl; [apply substring_whole | assumption]. Qed.

Lemma endsWith_append a b : endsWith (a ++ b) b = true.
Proof.
  unfold endsWith. rewrite length_append_string.
  replace (String.length a + String.length b - String.length b)%nat
    with (String.length a) by lia.
  rewrite substring_suffix, String.eqb_refl, andb_true_r.
  apply Nat.leb_le. lia.
Qed.

Lemma Z_to_string_inj a b : Z_to_string a = Z_to_string b -> a = b.
Proof.
  intros H. apply (f_equal parseInt) in H.
  rewrite !parseInt_Z_to_string in H. congruence.
Qed.

Lemma pwr_name_inj a b : pwr_name a = pwr_name b -> a = b.
Proof. intros H. apply append_cancel_r in H. apply Z_to_string_inj. exact H. Qed.

(** A version written [v<m>] parses back to [m]. *)
Lemma build_v m : 0 <= m -> build (Some ("v" ++ Z_to_string m)) = m.
Proof.
  intros H. unfold build.
  assert (E : Z_to_string m = N_to_string (Z.to_N m))
    by (destruct m; [reflexivity | reflexivity | lia]).
  rewrite E, <- (append_empty_r (N_to_string (Z.to_N m))).
  rewrite (extractVersionNumber_v _ (N_to_string (Z.to_N m))).
  - rewrite N_to_string_value. f_equal. lia.
  - apply match_v_digits_head; [apply N_to_string_digit_run | reflexivity].
Qed.

Lemma latest_build_spec osData m :
  latest_build osData = Some m ->
  0 <= m
  /\ (forall key, In key (pwr_keys osData) -> key_build key <= m)
  /\ (exists key, In key (pwr_keys osData) /\ key_build key = m).
Proof.
  unfold latest_build.
  destruct (map key_build (pwr_keys osData)) as [|a l] eqn:E; [discriminate|].
  intros [= <-].
  assert (U : forall key, In key (pwr_keys osData) -> In (key_build key) (a :: l))
    by (intros key Hk; rewrite <- E; apply in_map; exact Hk).
  pose proof (fold_max_attained l a) as A. rewrite <- E in A.
  apply in_map_iff in A. destruct A as (key & Hk & Hin).
  repeat split.
  - rewrite <- Hk. apply key_build_nonneg.
  - intros k Hin'. apply fold_max_upper, U, Hin'.
  - exists key. auto.
Qed.

(** ** Manifest client: the latest version of the catalog *)

(** X1. When the archive keys ([....pwr]) of the catalog's table for the
    branch and platform carry safe build numbers, the version
    [getLatestVersionFromNewAPI] returns is [v<m>] for the largest build
    number [m] among them: no archive key carries a larger build, one
    carries exactly [m], and the version parses back to [m] with
    [extractVersionNumber]. *)
Theorem getLatestVersionFromNewAPI_latest p branch w v w1 :
  getLatestVersionFromNewAPI p branch w = (Returned v, w1) ->
  exists api osData,
    fetchNewAPI w = (Returned api, w1)
    /\ os_table p api branch = Some osData
    /\ (safe_keys osData ->
        v = "v" ++ Z_to_string (build (Some v))
        /\ 0 <= build (Some v) <= MAX_SAFE_INTEGER
        /\ (forall key, In key (pwr_keys osData) -> key_build key <= build (Some v))
        /\ (exists key, In key (pwr_keys osData) /\ key_build key = build (Some v))).
Proof.
  rewrite getLatestVersionFromNewAPI_run.
  destruct (fetchNewAPI w) as [[api|e] w0]; [|discriminate].
  destruct (os_table p api branch) as [od|] eqn:T; [|discriminate].
  destruct (latest_build od) as [m|] eqn:L; [|discriminate].
  intros [= <- <-]. exists api, od.
  destruct (latest_build_spec _ _ L) as (H0 & Hub & Hat).
  pose proof (build_v m H0) as B.
  change ("v" ++ Z_to_string m) with (String "v" (Z_to_string m)) in *.
  rewrite B. split; [reflexivity|]. split; [exact T|]. intros S.
  repeat split; auto.
  destruct Hat as (key & Hin & <-). apply S. exact Hin.
Qed.

Lemma sample_catalog_safe_keys :
  safe_keys (JObj [("v7-linux-amd64.pwr", JStr "https://cdn/7");
                   ("v12-linux-amd64.pwr", JStr "https://cdn/12")]).
Proof.
  intros key H. vm_compute in H.
  destruct H as [<-|[<-|[]]]; vm_compute; discriminate.
Qed.

Lemma getLatestVersionFromNewAPI_latest_witness :
  exists w1,
    getLatestVersionFromNewAPI linux "release" catalog_world = (Returned "v12", w1)
    /\ build (Some "v12") = 12
    /\ key_build "v7-linux-amd64.pwr" <= 12.
Proof.
  destruct (getLatestVersionFromNewAPI linux "release" catalog_world)
    as [[v|e] w1] eqn:E; [|vm_compute in E; discriminate E].
  destruct (getLatestVersionFromNewAPI_latest _ _ _ _ _ E)
    as (api & od & Hf & Ht & Hsafe).
  assert (V : v = "v12") by (vm_compute in E; congruence).
  subst v. exists w1. split; [reflexivity|]. split; [reflexivity|].
  vm_compute in Hf. injection Hf as <- _.
  vm_compute in Ht. injection Ht as <-.
  destruct (Hsafe sample_catalog_safe_keys) as (_ & _ & Hub & _).
  apply Hub. vm_compute. auto.
Defined.

(** X2. [getLatestVersionFromNewAPI] returns a version exactly when
    [fetchNewAPI] returns a catalog whose table for the branch and platform
    is there and has at least one archive key.  It rethrows the error of
    [fetchNewAPI]; a missing table and a table without archive keys make it
    throw too.  Either way it leaves the world as [fetchNewAPI] left it. *)
Theorem getLatestVersionFromNewAPI_outcome p branch w :
  snd (getLatestVersionFromNewAPI p branch w) = snd (fetchNewAPI w)
  /\ ((exists v, fst (getLatestVersionFromNewAPI p branch w) = Returned v)
      <-> exists api osData,
            fst (fetchNewAPI w) = Returned api
            /\ os_table p api branch = Some osData
            /\ pwr_keys osData <> [])
  /\ (forall e,
      fst (fetchNewAPI w) = Thrown e ->
      fst (getLatestVersionFromNewAPI p branch w) = Thrown e)
  /\ (forall api,
      fst (fetchNewAPI w) = Returned api -> os_table p api branch = None ->
      fst (getLatestVersionFromNewAPI p branch w) = Thrown (table_error p api branch))
  /\ (forall api osData,
      fst (fetchNewAPI w) = Returned api ->
      os_table p api branch = Some osData -> pwr_keys osData = [] ->
      fst (getLatestVersionFromNewAPI p branch w)
      = Thrown ("No .pwr files found for " ++ os_key p)).
Proof.
  rewrite getLatestVersionFromNewAPI_run.
  destruct (fetchNewAPI w) as [[api|e] w1]; cbn [fst snd].
  - split; [reflexivity|]. split; [|split; [discriminate|split]].
    + split.
      * intros (v & H). exists api.
        destruct (os_table p api branch) as [od|]; [|discriminate].
        exists od. repeat split. intros K. unfold latest_build in H.
        rewrite K in H. discriminate.
      * intros (api' & od & [= <-] & -> & K).
        unfold latest_build.
        destruct (pwr_keys od) as [|k ks]; [congruence|]. cbn [map]. eauto.
    + intros api' [= <-] ->. reflexivity.
    + intros api' od [= <-] -> K. unfold latest_build. rewrite K. reflexivity.
  - split; [reflexivity|]. split; [|split; [|split]].
    + split; [intros (v & H); discriminate | intros (a & o & H & _); discriminate].
    + intros e' [= <-]. reflexivity.
    + discriminate.
    + discriminate.
Qed.

Lemma getLatestVersionFromNewAPI_outcome_witness :
  fst (getLatestVersionFromNewAPI linux "release" offline_world)
  = Thrown "connect ECONNREFUSED"
  /\ fst (getLatestVersionFromNewAPI linux "beta" catalog_world)
     = Thrown "No data found for branch: beta, OS: linux".
Proof.
  split.
  - destruct (getLatestVersionFromNewAPI_outcome linux "release" offline_world)
      as (_ & _ & H & _).
    apply H. reflexivity.
  - destruct (getLatestVersionFromNewAPI_outcome linux "beta" catalog_world)
      as (_ & _ & _ & H & _).
    apply (H sample_catalog); reflexivity.
Defined.

(** ** Manifest client: the download URL of a version *)



(** ** Manifest client: the latest version and the download URLs agree *)

Lemma js_get_key_listed osData key url :
  js_get osData ("v" ++ key) = Some url -> In ("v" ++ key) (js_keys osData).
Proof.
  destruct osData as [| b | z | s | items | fields]; try discriminate;
    try (cbn [js_get]; change (String.eqb ("v" ++ key) "length") with false;
         cbv iota; unfold array_index;
         change (is_empty (drop_while is_digit ("v" ++ key))) with false;
         rewrite andb_false_r; discriminate).
  cbn [js_get js_keys]. generalize ("v" ++ key). intros k.
  induction fields as [|[k' v'] rest IH]; [discriminate|].
  cbn [assoc map fst]. destruct (String.eqb_spec k' k) as [->|N].
  - intros _. left. reflexivity.
  - intros H. right. apply IH. exact H.
Qed.

(** X4. The two readers of the catalog agree.  On Windows, Linux and
    macOS, with a catalog whose archive keys carry safe build numbers, when
    [getPWRUrlFromNewAPI] finds a URL for version [v<n>], then
    [getLatestVersionFromNewAPI], run in the same world, returns a version,
    and its build is at least [n]: no version with a download URL is newer
    than the latest version. *)
Theorem latest_version_covers_urls p branch w (n : N) url :
  (forall api osData,
      fst (fetchNewAPI w) = Returned api ->
      os_table p api branch = Some osData -> safe_keys osData) ->
  platform_file_name p ("v" ++ N_to_string n) <> None ->
  fst (getPWRUrlFromNewAPI p branch ("v" ++ N_to_string n) w) = Returned url ->
  exists v,
    fst (getLatestVersionFromNewAPI p branch w) = Returned v
    /\ Z.of_N n <= build (Some v) <= MAX_SAFE_INTEGER.
Proof.
  intros Hsafe' Hos Hurl.
  rewrite getPWRUrlFromNewAPI_run in Hurl. rewrite getLatestVersionFromNewAPI_run.
  destruct (fetchNewAPI w) as [[api|e] w1]; [|discriminate]. cbn [fst] in *.
  destruct (os_table p api branch) as [od|] eqn:T; [|discriminate].
  pose proof (Hsafe' api od eq_refl T) as S0.
  destruct (platform_file_name p ("v" ++ N_to_string n)) as [file|] eqn:F;
    [|congruence].
  cbn [string_or_undefined] in Hurl.
  destruct (js_get od file) as [u|] eqn:G; [|discriminate].
  assert (S : exists suffix,
             file = "v" ++ (N_to_string n ++ suffix ++ ".pwr")
             /\ starts_with_digit (suffix ++ ".pwr") = false).
  { unfold platform_file_name in F.
    destruct (String.eqb (getOS p) "windows");
      [|destruct (String.eqb (getOS p) "linux");
        [|destruct (String.eqb (getOS p) "darwin"); [|discriminate]]];
      injection F as <-;
      [exists "-windows-amd64" | exists "-linux-amd64" | exists "-darwin-arm64"];
      (split; [|reflexivity]); cbn [append]; f_equal;
      rewrite <- append_assoc_string; reflexivity. }
  destruct S as (suffix & -> & Hs).
  assert (K : In ("v" ++ (N_to_string n ++ suffix ++ ".pwr")) (pwr_keys od)).
  { unfold pwr_keys. apply filter_In. split.
    - eapply js_get_key_listed. exact G.
    - replace ("v" ++ N_to_string n ++ suffix ++ ".pwr")
        with (("v" ++ N_to_string n ++ suffix) ++ ".pwr").
      + apply endsWith_append.
      + cbn [append]. f_equal. apply append_assoc_string. }
  assert (B : key_build ("v" ++ (N_to_string n ++ suffix ++ ".pwr")) = Z.of_N n).
  { unfold key_build.
    rewrite (match_v_digits_head (N_to_string n) (suffix ++ ".pwr"))
      by (apply N_to_string_digit_run || exact Hs).
    rewrite N_to_string_value. reflexivity. }
  destruct (latest_build od) as [m|] eqn:L.
  - destruct (latest_build_spec _ _ L) as (H0 & Hub & (k & Hk & Hm)).
    exists ("v" ++ Z_to_string m). split; [reflexivity|].
    rewrite (build_v m H0), <- B. split; [apply Hub; exact K|].
    rewrite <- Hm. apply S0. exact Hk.
  - exfalso. unfold latest_build in L.
    destruct (pwr_keys od); [destruct K | discriminate L].
Qed.

Lemma latest_version_covers_urls_witness :
  exists v,
    fst (getLatestVersionFromNewAPI linux "release" catalog_world) = Returned v
    /\ 7 <= build (Some v).
Proof.
  destruct (latest_version_covers_urls linux "release" catalog_world 7
              (JStr "https://cdn/7")) as (v & Hv & Hle & _).
  - intros api od Ha Ho. vm_compute in Ha. injection Ha as <-.
    vm_compute in Ho. injection Ho as <-. exact sample_catalog_safe_keys.
  - discriminate.
  - reflexivity.
  - exists v. split; assumption.
Defined.

(** ** Manifest client: what the cache cell holds *)

(** X5. The cache cell of [fetchNewAPI] is empty when the module is
    loaded, and a call keeps it empty or holding a catalog (a truthy document
    with a truthy [hytale] member); whatever a call returns, fresh or from
    the cache, is such a catalog.  A call sends at most one request, the one
    to the catalog endpoint, and touches nothing else of the world. *)
Theorem fetchNewAPI_keeps_catalogs :
  (forall now net fs, cache_valid (initial_world now net fs))
  /\ (forall w,
      cache_valid w ->
      cache_valid (snd (fetchNewAPI w))
      /\ (forall d, fst (fetchNewAPI w) = Returned d -> is_catalog d))
  /\ (forall w,
      (requests (snd (fetchNewAPI w)) = requests w
       \/ requests (snd (fetchNewAPI w)) = (requests w ++ [catalog_request])%list)
      /\ clock (snd (fetchNewAPI w)) = clock w
      /\ opened (snd (fetchNewAPI w)) = opened w).
Proof.
  split; [|split].
  - intros now net fs. left. reflexivity.
  - apply fetchNewAPI_cache_valid.
  - intros w. destruct (cache_fresh w) eqn:F.
    + rewrite (fetchNewAPI_fresh w F). auto.
    + destruct (catalog_of (network w (requests w) catalog_request)) as [x|] eqn:K.
      * rewrite (fetchNewAPI_refresh w x F K). cbn. auto.
      * destruct (fetchNewAPI_failed w F K) as (e & E). rewrite E. cbn. auto.
Qed.

Lemma fetchNewAPI_keeps_catalogs_witness :
  cache_valid (snd (fetchNewAPI catalog_world))
  /\ cache_valid (snd (fetchNewAPI offline_world)).
Proof.
  destruct fetchNewAPI_keeps_catalogs as (Hinit & Hstep & _).
  split; apply Hstep; apply Hinit.
Defined.

(** X6. With a fresh cache whose table for the branch and platform has an
    archive key, the keys carrying safe build numbers,
    [getLatestClientVersion] answers from the cache: it returns [v<m>] for
    the largest build [m] of the table and leaves the world untouched, so
    neither the catalog endpoint nor the legacy endpoint is asked. *)
Theorem getLatestClientVersion_cached p branch w osData m :
  cache_fresh w = true ->
  os_table p (apiCache w) branch = Some osData ->
  safe_keys osData ->
  latest_build osData = Some m ->
  getLatestClientVersion p branch w = (Returned (JStr ("v" ++ Z_to_string m)), w).
Proof.
  intros F T _ L. apply getLatestClientVersion_primary.
  rewrite getLatestVersionFromNewAPI_run, (fetchNewAPI_fresh w F), T, L.
  reflexivity.
Qed.

Lemma getLatestClientVersion_cached_witness :
  getLatestClientVersion linux "release" cached_world
  = (Returned (JStr "v12"), cached_world).
Proof.
  apply (getLatestClientVersion_cached linux "release" cached_world
           (JObj [("v7-linux-amd64.pwr", JStr "https://cdn/7");
                  ("v12-linux-amd64.pwr", JStr "https://cdn/12")]) 12);
    try reflexivity.
  exact sample_catalog_safe_keys.
Defined.

(** ** Patch planner: without a manifest *)

Lemma canUseDifferentialUpdate_no_url currentVersion details :
  differentialUrl details = JNull ->
  canUseDifferentialUpdate currentVersion (Some details) = false.
Proof. intros H. unfold canUseDifferentialUpdate. rewrite H. reflexivity. Qed.

(** X7. [extractVersionDetails] does not fail when the manifest cannot be
    had.  When the manifest request throws, and when its reply has no
    [patches], the plan item of every target is the full-archive one: the
    URL built by the archive locator, no differential URL, no checksum, not
    differential; and [canUseDifferentialUpdate] rejects it for every
    current version. *)
Theorem extractVersionDetails_without_manifest p targetVersion branch w :
  let details := version_details p targetVersion branch (JObj []) in
  ((forall e w1,
       smartRequest p (manifest_url p branch) w = (Thrown e, w1) ->
       extractVersionDetails p targetVersion branch w = (Returned details, w1))
   /\ (forall r w1,
       smartRequest p (manifest_url p branch) w = (Returned r, w1) ->
       truthy_opt (js_get_opt (Some (data r)) "patches") = false ->
       extractVersionDetails p targetVersion branch w = (Returned details, w1)))
  /\ fullUrl details = JStr (buildArchiveUrl p (Int (build targetVersion)) branch)
  /\ differentialUrl details = JNull
  /\ checksum details = JNull
  /\ isDifferential details = false
  /\ (forall currentVersion,
      canUseDifferentialUpdate currentVersion (Some details) = false).
Proof.
  cbv zeta. split; [split|].
  - intros e w1 H.
    unfold extractVersionDetails, fetchPatchManifest, try_catch, bind.
    fold (manifest_url p branch). rewrite H. reflexivity.
  - intros r w1 H T.
    unfold extractVersionDetails, fetchPatchManifest, try_catch, bind.
    fold (manifest_url p branch). rewrite H.
    unfold member. destruct (data r) eqn:D; try reflexivity;
      (cbn [js_get_opt] in T; unfold ret, js_or;
       destruct (js_get _ "patches") as [x|]; [|reflexivity];
       cbn [truthy_opt] in T; rewrite T; reflexivity).
  - cbn [version_details fullUrl differentialUrl checksum isDifferential].
    rewrite extractVersionNumber_build.
    split; [reflexivity|]. split; [reflexivity|]. split; [reflexivity|].
    split; [reflexivity|].
    intros cv. apply canUseDifferentialUpdate_no_url. reflexivity.
Qed.

Lemma extractVersionDetails_without_manifest_witness :
  extractVersionDetails linux (Some "v8") "release" offline_world
  = (Returned (version_details linux (Some "v8") "release" (JObj [])),
     log_request (mkRequest GET (manifest_url linux "release")) offline_world).
Proof.
  destruct (extractVersionDetails_without_manifest linux (Some "v8") "release"
              offline_world) as ((H & _) & _).
  apply (H "connect ECONNREFUSED"). reflexivity.
Defined.

(** ** Archive locator *)

(** X8. For one platform and branch, [buildArchiveUrl] gives different
    builds different URLs: a probe or a download of one build can never hit
    the archive of another. *)
Theorem buildArchiveUrl_distinct p branch a b :
  a <> b ->
  buildArchiveUrl p (Int a) branch <> buildArchiveUrl p (Int b) branch.
Proof.
  intros N H. apply N. unfold buildArchiveUrl in H. cbn [num_to_string] in H.
  repeat apply append_cancel_l in H.
  apply pwr_name_inj. exact H.
Qed.

Lemma buildArchiveUrl_distinct_witness :
  buildArchiveUrl linux (Int 7) "release" <> buildArchiveUrl linux (Int 8) "release".
Proof. apply buildArchiveUrl_distinct. discriminate. Defined.

(** ** Patch planner: the existence check *)

(** X9. [checkArchiveExists] never throws.  It sends one HEAD request, to
    the URL of the build, and answers true exactly when the reply has status
    200: any other status and any network error mean absent. *)
Theorem checkArchiveExists_status p i branch w :
  exists present,
    checkArchiveExists p (Int i) branch w
    = (Returned present,
       log_request (mkRequest HEAD (buildArchiveUrl p (Int i) branch)) w)
    /\ (present = true
        <-> exists d,
              network w (requests w)
                (mkRequest HEAD (buildArchiveUrl p (Int i) branch))
              = HttpResponse 200 d).
Proof.
  rewrite checkArchiveExists_spec. eexists. split; [reflexivity|].
  unfold reports_present, probe.
  destruct (network w (requests w) _) as [e|st d].
  - split; [discriminate | intros (d & H); discriminate].
  - rewrite Z.eqb_eq. split.
    + intros ->. eauto.
    + intros (d' & [= -> _]). reflexivity.
Qed.

(** ** Patch planner: the chain of full patches *)











(** X13. The planner reads versions through their build number only: two
    current versions that are both present (or both absent) and parse to
    the same build, and two targets that parse to the same build, get the
    same answer from [canUseDifferentialUpdate] and the same plan from
    [needsIntermediatePatches], whatever their format. *)
Theorem planner_reads_builds currentVersion currentVersion'
    targetVersion targetVersion' targetDetails :
  absent currentVersion = absent currentVersion' ->
  build currentVersion = build currentVersion' ->
  build targetVersion = build targetVersion' ->
  canUseDifferentialUpdate currentVersion targetDetails
  = canUseDifferentialUpdate currentVersion' targetDetails
  /\ needsIntermediatePatches currentVersion targetVersion
     = needsIntermediatePatches currentVersion' targetVersion'.
Proof.
  intros Ha Hb Ht. split.
  - unfold canUseDifferentialUpdate.
    rewrite !extractVersionNumber_build, Ha, Hb. reflexivity.
  - destruct (absent currentVersion') eqn:A.
    + unfold needsIntermediatePatches. rewrite Ha, A. reflexivity.
    + rewrite !needsIntermediatePatches_known by congruence.
      rewrite Hb, Ht. reflexivity.
Qed.

Lemma planner_reads_builds_witness :
  canUseDifferentialUpdate (Some "v5") (Some details_from_5)
  = canUseDifferentialUpdate (Some "5.pwr") (Some details_from_5)
  /\ needsIntermediatePatches (Some "v5") (Some "v8-linux-amd64.pwr")
     = needsIntermediatePatches (Some "5.pwr") (Some "8").
Proof. apply planner_reads_builds; reflexivity. Defined.

(** ** Patch planner: the sweep over the archives *)

Lemma discoverAvailableVersions_run p latestKnown branch maxProbe w :
  discoverAvailableVersions p latestKnown branch maxProbe w
  = (Returned
       (map pwr_name
          (present_builds p branch (network w) (requests w)
             (probe_range (build latestKnown) maxProbe))),
     log_requests (map (probe p branch) (probe_range (build latestKnown) maxProbe)) w).
Proof.
  unfold discoverAvailableVersions, probe_range.
  rewrite extractVersionNumber_build.
  rewrite (discover_loop_spec p branch (build latestKnown) maxProbe
             (Z.to_nat (build latestKnown + 1
                        - Z.max 1 (build latestKnown - maxProbe))))
    by reflexivity.
  reflexivity.
Qed.

Lemma present_builds_incl p branch net builds : forall history i,
  In i (present_builds p branch net history builds) -> In i builds.
Proof.
  induction builds as [|b rest IH]; intros history i H; [exact H|].
  cbn [present_builds] in H. apply in_app_or in H. destruct H as [H|H].
  - destruct (reports_present _ _ _); [|destruct H].
    destruct H as [<-|[]]. left. reflexivity.
  - right. eapply IH. exact H.
Qed.




(** X15. For a safe latest build and a safe [maxProbe], every name
    [discoverAvailableVersions] returns is the file name of a build between
    [max(1, latest - maxProbe)] and the latest build, and parses back to
    that build with [extractVersionNumber]. *)
Theorem discoverAvailableVersions_round_trip p latestKnown branch maxProbe w
    names w' name :
  safe (build latestKnown) -> safe maxProbe ->
  discoverAvailableVersions p latestKnown branch maxProbe w = (Returned names, w') ->
  In name names ->
  name = pwr_name (build (Some name))
  /\ Z.max 1 (build latestKnown - maxProbe) <= build (Some name) <= build latestKnown.
Proof.
  intros _ _. rewrite discoverAvailableVersions_run. intros [= <- _] H.
  apply in_map_iff in H. destruct H as (i & <- & Hi).
  apply present_builds_incl, probe_range_In in Hi.
  rewrite build_pwr_name by lia. split; [reflexivity | exact Hi].
Qed.

Lemma discoverAvailableVersions_round_trip_witness :
  build (Some "7.pwr") = 7
  /\ "7.pwr" = pwr_name (build (Some "7.pwr"))
  /\ Z.max 1 (build (Some "v10") - 5) <= build (Some "7.pwr") <= build (Some "v10").
Proof.
  split; [reflexivity|].
  destruct (discoverAvailableVersions linux (Some "v10") "release" 5 probe_world)
    as [[names|e] w'] eqn:E; [|vm_compute in E; discriminate E].
  apply (discoverAvailableVersions_round_trip linux (Some "v10") "release" 5
           probe_world names w' "7.pwr");
    [safe_integer | safe_integer | exact E |].
  vm_compute in E. injection E as <- _. simpl. auto.
Defined.

(** ** Integrity verifier: files that cannot be read, plans without a hash *)

(** X16. [computeFileChecksum] opens the file once, whether it can be read
    or not.  When a digest is expected and the file cannot be read,
    [validateChecksum] throws the read error instead of answering false. *)
Theorem validateChecksum_unreadable p filePath expectedChecksum w :
  opened (snd (computeFileChecksum p filePath w)) = (opened w ++ [filePath])%list
  /\ (truthy expectedChecksum = true -> files w filePath = None ->
      exists e,
        validateChecksum p filePath expectedChecksum w
        = (Thrown e, log_open filePath w)).
Proof.
  split.
  - unfold computeFileChecksum. destruct (files w filePath); reflexivity.
  - intros T F. unfold validateChecksum. rewrite T. cbn [negb].
    unfold bind, computeFileChecksum. rewrite F. eexists. reflexivity.
Qed.

Lemma validateChecksum_unreadable_witness :
  exists e,
    validateChecksum linux "/tmp/missing.pwr" (JStr "00") offline_world
    = (Thrown e, log_open "/tmp/missing.pwr" offline_world).
Proof.
  destruct (validateChecksum_unreadable linux "/tmp/missing.pwr" (JStr "00")
              offline_world) as (_ & H).
  apply H; reflexivity.
Defined.

(** X17. The digest a plan item is verified against is the [patch_hash] of
    its manifest entry.  When the entry has none (or there is no entry),
    [validateChecksum] accepts any file for the item, without opening it;
    when the entry has a hash, a readable file is accepted exactly when its
    SHA-256 digest is that hash. *)
Theorem plan_checksum_is_patch_hash p targetVersion branch manifest filePath w :
  let details := version_details p targetVersion branch manifest in
  let entry := manifest_entry manifest targetVersion in
  (truthy_opt (js_get_opt entry "patch_hash") = false ->
   validateChecksum p filePath (checksum details) w = (Returned true, w))
  /\ (forall hash content,
      js_get_opt entry "patch_hash" = Some (JStr hash) -> hash <> "" ->
      files w filePath = Some content ->
      validateChecksum p filePath (checksum details) w
      = (Returned (String.eqb (sha256_hex p content) hash), log_open filePath w)).
Proof.
  cbv zeta. unfold manifest_entry. cbn [version_details checksum]. split.
  - intros T. unfold validateChecksum. rewrite truthy_js_or_null, T. reflexivity.
  - intros hash content E N F. rewrite E.
    assert (T : truthy (JStr hash) = true)
      by (destruct hash; [congruence | reflexivity]).
    unfold js_or. rewrite T. unfold validateChecksum. rewrite T. cbn [negb].
    unfold bind, computeFileChecksum. rewrite F. reflexivity.
Qed.

Lemma plan_checksum_is_patch_hash_witness :
  validateChecksum linux "/tmp/missing.pwr"
    (checksum (version_details linux (Some "v8") "release"
                 (JObj [("8", entry_from_5)]))) offline_world
  = (Returned true, offline_world).
Proof.
  destruct (plan_checksum_is_patch_hash linux (Some "v8") "release"
              (JObj [("8", entry_from_5)]) "/tmp/missing.pwr" offline_world)
    as (H & _).
  apply H. reflexivity.
Defined.

(** ** Patch planner: a delta with a declared source *)

(** X18. For a safe target build and a manifest entry that has a patch
    URL, is marked a proper patch and declares a positive safe source build
    [n] in [from], the plan item is usable as a delta exactly from build
    [n]: [canUseDifferentialUpdate] returns true when, and only when, a
    current version is there and parses to [n]. *)
Theorem delta_from_declared_source p targetVersion branch manifest n currentVersion :
  let entry := manifest_entry manifest targetVersion in
  safe (build targetVersion) ->
  js_get_opt entry "from" = Some (JNum n) -> 0 < n -> safe n ->
  truthy_opt (js_get_opt entry "patch_url") = true ->
  truthy_opt (js_get_opt entry "proper_patch") = true ->
  canUseDifferentialUpdate currentVersion
    (Some (version_details p targetVersion branch manifest)) = true
  <-> absent currentVersion = false /\ build currentVersion = n.
Proof.
  cbv zeta. intros _ Hf Hn _ Hu Hp.
  assert (S : build (sourceVersion (version_details p targetVersion branch manifest))
              = n).
  { rewrite (sourceVersion_declared _ _ _ _ (JNum n) Hf).
    - apply build_pwr_name. lia.
    - simpl. apply negb_true_iff, Z.eqb_neq. lia. }
  rewrite canUseDifferentialUpdate_iff. split.
  - intros (d & [= <-] & _ & _ & Ha & Hb). rewrite S in Hb. auto.
  - intros (Ha & Hb). eexists. split; [reflexivity|].
    cbn [version_details differentialUrl isDifferential].
    rewrite truthy_js_or_null. repeat split; try assumption.
    rewrite Hb. symmetry. exact S.
Qed.

(** Target ["v8"], an entry for build 8 with [from = 5]: installed ["v5"]
    takes the delta, installed ["v7"] does not. *)
Lemma delta_from_declared_source_witness :
  canUseDifferentialUpdate (Some "v5") (Some details_from_5) = true
  /\ canUseDifferentialUpdate (Some "v7") (Some details_from_5) <> true.
Proof.
  pose proof (delta_from_declared_source linux (Some "v8") "release"
                (JObj [("8", entry_from_5)]) 5) as H.
  split.
  - apply (H (Some "v5")); try reflexivity; try safe_integer.
    split; reflexivity.
  - intros C. apply (H (Some "v7")) in C; try reflexivity; try safe_integer.
    destruct C as (_ & C). vm_compute in C. discriminate C.
Defined.
